(** * GitRefCreator: artifact discovery and ref reconciliation

    A shallow embedding of [src/Tasks/common/GitRefCreator.ts] and the
    properties of it that the specification states.

    The TypeScript class talks to four collaborators: the task library
    [tl] (variables, inputs, log and task result), the build client,
    the version-control client and the JavaScript runtime (regular
    expressions, exceptions).  The embedding keeps the code's control
    flow and makes these explicit:
    - JavaScript values that may be [undefined] or [null] are [JSVal];
    - the two regular expressions of the source run on a small model of
      the JavaScript [RegExp] object, with its [lastIndex] state;
    - asynchronous, logging, throwing code lives in the monad [M]: it
      threads the state of the outside world, collects the log and the
      collaborator calls in order, and may end in an exception. *)

From Stdlib Require Import Ascii String List Arith Lia Bool.
From stdpp Require Import base option list strings gmap.

Import ListNotations.
Local Open Scope string_scope.
Local Open Scope list_scope.

(** ** JavaScript values *)

(** What a [string]-typed expression of the source holds at run time
    (the project compiles without strict null checks). *)
Inductive JSVal : Type :=
| Undefined
| Null
| Str (s : string).

(** [`${v}`] *)
Definition toStr (v : JSVal) : string :=
  match v with
  | Undefined => "undefined"
  | Null => "null"
  | Str s => s
  end.

(** [v == null]: true of both [null] and [undefined]. *)
Definition looseNull (v : JSVal) : bool :=
  match v with
  | Undefined | Null => true
  | Str _ => false
  end.

(** [v === null]: true of [null] only. *)
Definition strictNull (v : JSVal) : bool :=
  match v with
  | Null => true
  | _ => false
  end.

(** [v === s] and [v == s] for a string [s] (they agree: neither
    [undefined] nor [null] is loosely equal to a string). *)
Definition eqStr (v : JSVal) (s : string) : bool :=
  match v with
  | Str t => String.eqb t s
  | _ => false
  end.

(** [a === b] on two values. *)
Definition strictEq (a b : JSVal) : bool :=
  match a, b with
  | Undefined, Undefined => true
  | Null, Null => true
  | Str s, Str t => String.eqb s t
  | _, _ => false
  end.

(** ** Regular expressions

    The fragment of JavaScript patterns that the source uses: a
    sequence of single-character atoms (a literal, [.], a class escape
    such as [\s]), each with an optional greedy quantifier, possibly
    wrapped alone in a capturing group, with the flags [g] and [i].
    The model is that of ASCII text: a character is a code unit below
    128.  [RegExp_new] answers [None] outside the fragment. *)
Module JsRegExp.

Inductive CharClass : Type :=
| CLit (c : ascii)
| CDot
| CSpace | CNotSpace
| CDigit | CNotDigit
| CWord | CNotWord.

Inductive Quant : Type := QOne | QOpt | QStar | QPlus.

Record Item : Type := mkItem {
  icls : CharClass;
  iquant : Quant;
  icapture : bool
}.

Record RegExp : Type := mkRegExp {
  items : list Item;
  global : bool;
  ignoreCase : bool
}.

Definition code (c : ascii) : nat := nat_of_ascii c.

Definition between (lo hi : nat) (c : ascii) : bool :=
  Nat.leb lo (code c) && Nat.leb (code c) hi.

Definition isDigit : ascii -> bool := between 48 57.
Definition isUpper : ascii -> bool := between 65 90.
Definition isLower : ascii -> bool := between 97 122.

Definition isWordChar (c : ascii) : bool :=
  isDigit c || isUpper c || isLower c || Nat.eqb (code c) 95.

Definition isLineTerminator (c : ascii) : bool :=
  Nat.eqb (code c) 10 || Nat.eqb (code c) 13.

Definition isWhiteSpace (c : ascii) : bool :=
  between 9 13 c || Nat.eqb (code c) 32.

(** Canonicalize of the [i] flag: upper case, on letters. *)
Definition canonicalize (c : ascii) : ascii :=
  if isLower c then ascii_of_nat (code c - 32) else c.

Definition accepts (ic : bool) (k : CharClass) (c : ascii) : bool :=
  match k with
  | CLit d =>
      if ic then Ascii.eqb (canonicalize d) (canonicalize c)
      else Ascii.eqb d c
  | CDot => negb (isLineTerminator c)
  | CSpace => isWhiteSpace c
  | CNotSpace => negb (isWhiteSpace c)
  | CDigit => isDigit c
  | CNotDigit => negb (isDigit c)
  | CWord => isWordChar c
  | CNotWord => negb (isWordChar c)
  end.

(** *** Parsing a pattern *)

Definition isSyntaxChar (c : ascii) : bool :=
  existsb (Ascii.eqb c)
    (list_ascii_of_string "()[]{}|^$*+?\.").

Definition parseEscape (c : ascii) : option CharClass :=
  if Ascii.eqb c "s" then Some CSpace
  else if Ascii.eqb c "S" then Some CNotSpace
  else if Ascii.eqb c "d" then Some CDigit
  else if Ascii.eqb c "D" then Some CNotDigit
  else if Ascii.eqb c "w" then Some CWord
  else if Ascii.eqb c "W" then Some CNotWord
  else if isWordChar c then None
  else Some (CLit c).

Definition parseAtom (s : list ascii) : option (CharClass * list ascii) :=
  match s with
  | [] => None
  | c :: r =>
      if Ascii.eqb c "\" then
        match r with
        | [] => None
        | e :: r' =>
            match parseEscape e with
            | Some k => Some (k, r')
            | None => None
            end
        end
      else if Ascii.eqb c "." then Some (CDot, r)
      else if isSyntaxChar c then None
      else Some (CLit c, r)
  end.

Definition isQuantChar (c : ascii) : bool :=
  existsb (Ascii.eqb c) (list_ascii_of_string "*+?{").

(** The quantifier after an atom; a second quantifier character (a
    lazy [?], a braced count) leaves the fragment. *)
Definition parseQuant (s : list ascii) : option (Quant * list ascii) :=
  let unquantified (r : list ascii) :=
    match r with
    | c :: _ => negb (isQuantChar c)
    | [] => true
    end in
  match s with
  | c :: r =>
      if Ascii.eqb c "*" then
        if unquantified r then Some (QStar, r) else None
      else if Ascii.eqb c "+" then
        if unquantified r then Some (QPlus, r) else None
      else if Ascii.eqb c "?" then
        if unquantified r then Some (QOpt, r) else None
      else if Ascii.eqb c "{" then None
      else Some (QOne, s)
  | [] => Some (QOne, [])
  end.

Fixpoint parseItems (fuel : nat) (s : list ascii) : option (list Item) :=
  match fuel with
  | 0 => match s with [] => Some [] | _ => None end
  | S fuel' =>
      match s with
      | [] => Some []
      | c :: r =>
          if Ascii.eqb c "(" then
            match parseAtom r with
            | None => None
            | Some (k, r1) =>
                match parseQuant r1 with
                | None => None
                | Some (q, r2) =>
                    match r2 with
                    | d :: r3 =>
                        if Ascii.eqb d ")" then
                          match parseQuant r3 with
                          | Some (QOne, r4) =>
                              match parseItems fuel' r4 with
                              | Some its => Some (mkItem k q true :: its)
                              | None => None
                              end
                          | _ => None
                          end
                        else None
                    | [] => None
                    end
                end
            end
          else
            match parseAtom s with
            | None => None
            | Some (k, r1) =>
                match parseQuant r1 with
                | None => None
                | Some (q, r2) =>
                    match parseItems fuel' r2 with
                    | Some its => Some (mkItem k q false :: its)
                    | None => None
                    end
                end
            end
      end
  end.

(** Flags: [g] and [i], each at most once. *)
Fixpoint parseFlags (s : list ascii) (g i : bool) : option (bool * bool) :=
  match s with
  | [] => Some (g, i)
  | c :: r =>
      if Ascii.eqb c "g" then
        if g then None else parseFlags r true i
      else if Ascii.eqb c "i" then
        if i then None else parseFlags r g true
      else None
  end.

(** [new RegExp(pattern, flags)] *)
Definition RegExp_new (pattern flags : string) : option RegExp :=
  let p := list_ascii_of_string pattern in
  match parseItems (length p) p,
        parseFlags (list_ascii_of_string flags) false false with
  | Some its, Some (g, i) => Some (mkRegExp its g i)
  | _, _ => None
  end.

(** *** Matching *)

Definition minCount (q : Quant) : nat :=
  match q with
  | QOne | QPlus => 1
  | QOpt | QStar => 0
  end.

(** [None] is no bound. *)
Definition maxCount (q : Quant) : option nat :=
  match q with
  | QOne | QOpt => Some 1
  | QStar | QPlus => None
  end.

Definition belowMax (q : Quant) (n : nat) : bool :=
  match maxCount q with
  | Some m => Nat.ltb n m
  | None => true
  end.

(** One quantified atom: it takes as many characters as it can and
    gives them back one at a time while [continue], the match of what
    follows, fails.  [taken] holds the characters taken so far, last
    first, and [n] counts them. *)
Fixpoint repeatItem {R : Type} (ic : bool) (it : Item)
  (continue : list ascii -> list ascii -> option R)
  (s taken : list ascii) (n : nat) {struct s} : option R :=
  let stop :=
    if Nat.leb (minCount (iquant it)) n then continue taken s else None in
  match s with
  | c :: s' =>
      if belowMax (iquant it) n && accepts ic (icls it) c then
        match repeatItem ic it continue s' (c :: taken) (S n) with
        | Some r => Some r
        | None => stop
        end
      else stop
  | [] => stop
  end.

(** The backtracking matcher at one position: the items in order.
    The result is the text of the capturing groups and the unread
    input. *)
Fixpoint matchItems (ic : bool) (p : list Item) (s : list ascii)
  : option (list (list ascii) * list ascii) :=
  match p with
  | [] => Some ([], s)
  | it :: p' =>
      repeatItem ic it
        (fun taken rest =>
           match matchItems ic p' rest with
           | Some (caps, r) =>
               Some (if icapture it then rev taken :: caps else caps, r)
           | None => None
           end)
        s [] 0
  end.

Record MatchResult : Type := mkMatch {
  index : nat;
  endIndex : nat;
  captures : list (list ascii)
}.

(** The first position at or after [idx] where the pattern matches;
    [s] is the input from [idx] on. *)
Fixpoint search (ic : bool) (p : list Item) (s : list ascii) (idx : nat)
  : option MatchResult :=
  match matchItems ic p s with
  | Some (caps, rest) =>
      Some (mkMatch idx (idx + (length s - length rest)) caps)
  | None =>
      match s with
      | [] => None
      | _ :: s' => search ic p s' (S idx)
      end
  end.

(** [regexp.exec(str)] with the object's [lastIndex] before the call;
    the second component is [lastIndex] after it.  With the [g] flag
    the search starts at [lastIndex], a success moves [lastIndex] to
    the end of the match and a failure resets it to 0. *)
Definition exec (re : RegExp) (lastIndex : nat) (str : string)
  : option MatchResult * nat :=
  let chars := list_ascii_of_string str in
  let start := if global re then lastIndex else 0 in
  if Nat.ltb (length chars) start then (None, 0)
  else
    match search (ignoreCase re) (items re) (skipn start chars) start with
    | None => (None, 0)
    | Some m => (Some m, if global re then endIndex m else lastIndex)
    end.

(** [match[n]] for a group that took part in the match. *)
Definition group (m : MatchResult) (n : nat) : string :=
  match n with
  | 0 => ""
  | S k => string_of_list_ascii (nth k (captures m) [])
  end.

(** The matches that [str.replace] walks through: all of them from
    index 0 with the [g] flag, else the first one.  An empty match
    moves [lastIndex] one further. *)
Fixpoint matches (fuel : nat) (re : RegExp) (lastIndex : nat) (str : string)
  : list MatchResult :=
  match fuel with
  | 0 => []
  | S fuel' =>
      match exec re lastIndex str with
      | (None, _) => []
      | (Some m, li) =>
          if global re then
            m :: matches fuel' re
                   (if Nat.eqb (endIndex m) (index m) then S li else li) str
          else [m]
      end
  end.

Fixpoint substitute (chars : list ascii) (pos : nat)
  (ms : list MatchResult) (replacement : list ascii) : list ascii :=
  match ms with
  | [] => skipn pos chars
  | m :: ms' =>
      if Nat.leb pos (index m) then
        firstn (index m - pos) (skipn pos chars) ++ replacement
          ++ substitute chars (endIndex m) ms' replacement
      else substitute chars pos ms' replacement
  end.

(** [str.replace(re, replaceValue)] for a replacement text without
    [$] (the [$]-patterns are outside the fragment: [None]). *)
Definition replace (str : string) (re : RegExp) (replaceValue : string)
  : option string :=
  let chars := list_ascii_of_string str in
  let repl := list_ascii_of_string replaceValue in
  if existsb (Ascii.eqb "$") repl then None
  else
    Some (string_of_list_ascii
            (substitute chars 0 (matches (length chars + 2) re 0 str) repl)).

End JsRegExp.


(** ** Numbers

    [Number(v)], as far as the build id needs it: a text of decimal
    digits below 2^53 is that integer; any other text denotes a number
    (or NaN) that is left uninterpreted. *)
Inductive JSNumber : Type :=
| NaN
| Num (n : N)
| NumOther (text : string).

Fixpoint decimal (s : list ascii) (acc : N) : option N :=
  match s with
  | [] => Some acc
  | c :: r =>
      if JsRegExp.isDigit c
      then decimal r (10 * acc + N.of_nat (JsRegExp.code c - 48))%N
      else None
  end.

Definition Number_ (v : JSVal) : JSNumber :=
  match v with
  | Undefined => NaN
  | Null => Num 0
  | Str s =>
      if String.eqb s "" then Num 0
      else
        match decimal (list_ascii_of_string s) 0%N with
        | Some n => if (n <? 2 ^ 53)%N then Num n else NumOther s
        | None => NumOther s
        end
  end.

(** [s.replace(pattern, replacement)] with a text pattern: the first
    occurrence only (the replacement holds no [$]). *)
Definition replaceFirst (s pattern replacement : string) : string :=
  match String.index 0 pattern s with
  | Some i =>
      String.substring 0 i s +:+ replacement
        +:+ String.substring (i + String.length pattern)
              (String.length s - (i + String.length pattern)) s
  | None => s
  end.

(** ** Data *)

(** An entry of [tl.getVariables()]. *)
Record VariableInfo : Type := mkVariableInfo {
  vi_name : string;
  vi_value : JSVal
}.

(** Modelled from the spec: [IArtifactData] is declared in
    [./IArtifactData], which is not among the sources; the fields are
    those of the object literal in [getAllGitArtifacts] and of the
    ArtifactDescriptor of the specification.  The commit is whatever
    [tl.getVariable] gave. *)
Record IArtifactData : Type := mkArtifact {
  art_name : string;
  art_commit : JSVal;
  art_repositoryId : string
}.

(** [giti.GitRef], the two fields the code reads. *)
Record GitRef : Type := mkGitRef {
  ref_name : string;
  ref_objectId : string
}.

(** [giti.GitRefUpdate] *)
Record GitRefUpdate : Type := mkGitRefUpdate {
  upd_isLocked : bool;
  upd_name : string;
  upd_newObjectId : JSVal;
  upd_oldObjectId : string;
  upd_repositoryId : string
}.

(** Modelled from the spec: [giti.GitRefUpdateStatus] is declared by
    the client library; the specification lists its cases as ok,
    permission required for branch creation, permission required for
    tag creation, other. *)
Inductive GitRefUpdateStatus : Type :=
| Succeeded
| CreateBranchPermissionRequired
| CreateTagPermissionRequired
| OtherStatus.

(** [giti.GitRefUpdateResult], the fields the code reads. *)
Record GitRefUpdateResult : Type := mkGitRefUpdateResult {
  res_success : bool;
  res_updateStatus : GitRefUpdateStatus;
  res_repositoryId : string;
  res_newObjectId : string
}.

(** [bldi.Build]: [build.repository], when there is one, and its [id]. *)
Record Build : Type := mkBuild {
  build_repository : option JSVal
}.

Inductive TaskResult : Type := TaskSucceeded | TaskFailed.

(** ** Effects *)

(** What the outside world sees of a run, in order: the calls to the
    log and result sink of [tl], and the calls to the two clients. *)
Inductive Event : Type :=
| LogDebug (message : string)
| LogWarning (message : string)
| LogError (message : string)
| SetResult (result : TaskResult) (message : string)
| CallGetBuild (buildId : JSNumber)
| CallGetRefs (repositoryId : string)
| CallUpdateRefs (refUpdates : list GitRefUpdate) (repositoryId : string).

(** A thrown value, with the text of its [message]: a [TypeError] of
    the runtime or the rejection of a collaborator's promise.
    [NotModelled] is not an exception of the program: the run reached
    a regular expression or a replacement text outside the fragment
    that [JsRegExp] interprets. *)
Inductive Exn : Type :=
| TypeError (message : string)
| Rejection (message : string)
| NotModelled (what : string).

Definition exn_message (e : Exn) : string :=
  match e with
  | TypeError m | Rejection m | NotModelled m => m
  end.

(** Reading [v.prop] when [v] is [null] or [undefined]. *)
Definition cannotRead (prop : string) (v : JSVal) : Exn :=
  TypeError ("Cannot read property '" +:+ prop +:+ "' of " +:+ toStr v).

Inductive Res (A : Type) : Type :=
| Ok (a : A)
| Throw (e : Exn).
Arguments Ok {A} a.
Arguments Throw {A} e.

(** A computation over the world [W]: its result or exception, the
    world after it and the events it produced. *)
Definition M (W A : Type) : Type := W -> Res A * W * list Event.

Section Monad.
Context {W : Type}.

Definition ret {A} (a : A) : M W A := fun w => (Ok a, w, []).

Definition bind {A B} (m : M W A) (k : A -> M W B) : M W B :=
  fun w =>
    match m w with
    | (Ok a, w1, t1) =>
        match k a w1 with
        | (r, w2, t2) => (r, w2, t1 ++ t2)
        end
    | (Throw e, w1, t1) => (Throw e, w1, t1)
    end.

Definition throw {A} (e : Exn) : M W A := fun w => (Throw e, w, []).

Definition emit (ev : Event) : M W unit := fun w => (Ok tt, w, [ev]).

(** A call to a collaborator, recorded before it is made. *)
Definition call {A} (ev : Event) (f : W -> Res A * W) : M W A :=
  fun w => match f w with (r, w1) => (r, w1, [ev]) end.

(** [try { m } catch (err) { handler(err) }] *)
Definition tryCatch {A} (m : M W A) (handler : Exn -> M W A) : M W A :=
  fun w =>
    match m w with
    | (Ok a, w1, t1) => (Ok a, w1, t1)
    | (Throw e, w1, t1) =>
        match handler e w1 with
        | (r, w2, t2) => (r, w2, t1 ++ t2)
        end
    end.

(** [for (let x of xs) { await body(x); }] *)
Fixpoint forEach {A} (xs : list A) (body : A -> M W unit) : M W unit :=
  match xs with
  | [] => ret tt
  | x :: xs' => bind (body x) (fun _ => forEach xs' body)
  end.

End Monad.

Declare Scope js_scope.
Delimit Scope js_scope with js.
Notation "x <- m ;; k" := (bind m (fun x => k))
  (at level 100, m at next level, k at level 200, right associativity)
  : js_scope.
Notation "m ;; k" := (bind m (fun _ => k))
  (at level 100, k at level 200, right associativity) : js_scope.

(** ** Collaborators *)

(** [git.IGitApi], the two methods used. *)
Record IGitApi (W : Type) : Type := mkGitApi {
  getRefs : string -> W -> Res (option (list GitRef)) * W;
  updateRefs :
    list GitRefUpdate -> string -> W ->
    Res (option (list GitRefUpdateResult)) * W
}.
Arguments getRefs {W}.
Arguments updateRefs {W}.

(** [bld.IBuildApi], the method used; [None] is a [null] build. *)
Record IBuildApi (W : Type) : Type := mkBuildApi {
  getBuild : JSNumber -> W -> Res (option Build) * W
}.
Arguments getBuild {W}.

(** The task library and the connection factory, as the class uses
    them.  The variables and inputs do not change during a run.
    [getEndpointUrl] and [getEndpointAuthorizationParameter] are the
    values for the system connection; [WebApi] builds the connection
    from the collection URL and the token and hands out the two
    clients, or throws. *)
Record Host (W : Type) : Type := mkHost {
  getVariables : list VariableInfo;
  getVariable : string -> JSVal;
  getInput : string -> JSVal;
  getEndpointAuthorizationParameter : JSVal;
  getEndpointUrl : JSVal;
  WebApi : string -> JSVal -> Res (IGitApi W * IBuildApi W)
}.
Arguments getVariables {W}.
Arguments getVariable {W}.
Arguments getInput {W}.
Arguments getEndpointAuthorizationParameter {W}.
Arguments getEndpointUrl {W}.
Arguments WebApi {W}.

(** ** The class [GitRefCreator] *)

Definition defaultSearchPattern : string := "\s+".
Definition defaultRegexFlags : string := "g".
Definition defaultReplacePattern : string := "".
Definition permissionTemplate : string :=
  "You must grant the build account access to permission: ".

(** The pattern of [getAllGitArtifacts].  The source writes it as a
    string literal with [\.]; in a string literal that escape is the
    plain character, so every dot of the pattern is the wildcard. *)
Definition artifactPattern : string :=
  "RELEASE.ARTIFACTS.(.*).REPOSITORY.PROVIDER".

Definition zeroObjectId : string :=
  "0000000000000000000000000000000000000000".

Section GitRefCreator.
Context {W : Type}.
Variable host : Host W.
(** The abstract getter [refName] of the subclass. *)
Variable refName : string.
(** [`${status}`] for a status of the client library. *)
Variable showStatus : GitRefUpdateStatus -> string.

Local Open Scope js_scope.

Definition getInputOrDefault (inputName defaultValue : string) : string :=
  let value := getInput host inputName in
  if negb (looseNull value) then toStr value else defaultValue.

Definition generateRef (releaseName prefix : string) : M W string :=
  let searchRegex := getInputOrDefault "searchRegex" defaultSearchPattern in
  let regexFlags := getInputOrDefault "regexFlags" defaultRegexFlags in
  let replacePattern :=
    getInputOrDefault "replacePattern" defaultReplacePattern in
  emit (LogDebug ("Search Regex: '" +:+ searchRegex
                  +:+ "', Replace Pattern: '" +:+ replacePattern
                  +:+ "', flags: '" +:+ regexFlags +:+ "'")) ;;
  match JsRegExp.RegExp_new searchRegex regexFlags with
  | None => throw (NotModelled ("/" +:+ searchRegex +:+ "/" +:+ regexFlags))
  | Some regex =>
      match JsRegExp.replace releaseName regex replacePattern with
      | None => throw (NotModelled replacePattern)
      | Some replaced =>
          let refName := prefix +:+ replaced in
          emit (LogDebug ("RefName: '" +:+ refName +:+ "'")) ;;
          ret refName
      end
  end.

Definition getRepositoryIdFromBuildNumber (bldapi : IBuildApi W)
  (name : string) : M W JSVal :=
  let buildidVariable := "RELEASE.ARTIFACTS." +:+ name +:+ ".BUILDID" in
  let buildid := getVariable host buildidVariable in
  if strictNull buildid || eqStr buildid "" then
    emit (SetResult TaskFailed
            ("Unable to get build id from variable: " +:+ buildidVariable)) ;;
    ret Null
  else
    build <- call (CallGetBuild (Number_ buildid))
               (getBuild bldapi (Number_ buildid)) ;;
    match build with
    | None => throw (cannotRead "repository" Null)
    | Some b =>
        match build_repository b with
        | None => throw (cannotRead "id" Undefined)
        | Some id =>
            emit (LogDebug ("Got repositoryid: " +:+ toStr id)) ;;
            ret id
        end
    end.

Definition getRepositoryId (bldapi : IBuildApi W) (name : string)
  : M W JSVal :=
  let repositoryId :=
    getVariable host ("RELEASE.ARTIFACTS." +:+ name +:+ ".REPOSITORY_ID") in
  if negb (looseNull repositoryId) && negb (eqStr repositoryId "") then
    ret repositoryId
  else getRepositoryIdFromBuildNumber bldapi name.

(** The loop of [getAllGitArtifacts] over the variables still to
    scan.  The one [RegExp] object serves every iteration, so its
    [lastIndex] is loop state next to [artifactNames]. *)
Fixpoint scanVariables (bldapi : IBuildApi W) (regexp : JsRegExp.RegExp)
  (variables : list VariableInfo) (lastIndex : nat)
  (artifactNames : list IArtifactData) : M W (list IArtifactData) :=
  match variables with
  | [] => ret artifactNames
  | variableInfo :: rest =>
      match JsRegExp.exec regexp lastIndex (vi_name variableInfo) with
      | (None, lastIndex') =>
          emit (LogDebug ("No match for variable: "
                          +:+ vi_name variableInfo)) ;;
          scanVariables bldapi regexp rest lastIndex' artifactNames
      | (Some match_, lastIndex') =>
          if negb (eqStr (vi_value variableInfo) "TfsGit")
             && negb (eqStr (vi_value variableInfo) "Git") then
            emit (LogDebug ("Matching variable:  " +:+ vi_name variableInfo
                            +:+ ", but artifact type: "
                            +:+ toStr (vi_value variableInfo))) ;;
            scanVariables bldapi regexp rest lastIndex' artifactNames
          else
            let name := JsRegExp.group match_ 1 in
            emit (LogDebug ("Getting repository id for artifact: "
                            +:+ name)) ;;
            repositoryId <- getRepositoryId bldapi name ;;
            match repositoryId with
            | Undefined | Null =>
                scanVariables bldapi regexp rest lastIndex' artifactNames
            | Str id =>
                let artifact :=
                  {| art_name := name;
                     art_commit :=
                       getVariable host ("RELEASE.ARTIFACTS." +:+ name
                                         +:+ ".SOURCEVERSION");
                     art_repositoryId := id |} in
                scanVariables bldapi regexp rest lastIndex'
                  (artifactNames ++ [artifact])
            end
      end
  end.

Definition getAllGitArtifacts (bldapi : IBuildApi W)
  : M W (list IArtifactData) :=
  match JsRegExp.RegExp_new artifactPattern "gi" with
  | None => throw (NotModelled artifactPattern)
  | Some regexp => scanVariables bldapi regexp (getVariables host) 0 []
  end.

Definition updateRef (artifact : IArtifactData) (refName : string)
  (gitapi : IGitApi W) : M W (option GitRefUpdateResult) :=
  let ref :=
    {| upd_isLocked := false;
       upd_name := refName;
       upd_newObjectId := art_commit artifact;
       upd_oldObjectId := zeroObjectId;
       upd_repositoryId := art_repositoryId artifact |} in
  let refArray := [ref] in
  updateRefsResult <-
    call (CallUpdateRefs refArray (art_repositoryId artifact))
      (updateRefs gitapi refArray (art_repositoryId artifact)) ;;
  match updateRefsResult with
  | None | Some [] =>
      emit (LogWarning "No update result returned from updateRefs") ;;
      ret None
  | Some (first :: _) => ret (Some first)
  end.

Definition doesRefExist (artifact : IArtifactData) (refName : string)
  (gitapi : IGitApi W) : M W bool :=
  refs <- call (CallGetRefs (art_repositoryId artifact))
            (getRefs gitapi (art_repositoryId artifact)) ;;
  match refs with
  | None => ret false
  | Some refs =>
      match List.find (fun x => String.eqb (ref_name x) refName) refs with
      | None => ret false
      | Some foundRef =>
          if strictEq (Str (ref_objectId foundRef)) (art_commit artifact)
          then
            emit (LogDebug "Found matching ref for commit.") ;;
            ret true
          else
            emit (LogWarning
                    ("Ref exists, but on different commit. New commit: "
                     +:+ toStr (art_commit artifact) +:+ " Old Commit: "
                     +:+ ref_objectId foundRef)) ;;
            ret false
      end
  end.

(** The [switch] on the update status. *)
Definition permissionError (status : GitRefUpdateStatus) : M W unit :=
  match status with
  | CreateBranchPermissionRequired =>
      emit (LogError (permissionTemplate +:+ "Create Branch"))
  | CreateTagPermissionRequired =>
      emit (LogError (permissionTemplate +:+ "Create Tag"))
  | _ => ret tt
  end.

Definition processArtifact (artifact : IArtifactData) (gitapi : IGitApi W)
  : M W unit :=
  emit (LogDebug ("Processing artifact: '" +:+ art_name artifact
                  +:+ "' for ref: " +:+ refName +:+ " new commit: "
                  +:+ toStr (art_commit artifact))) ;;
  updateResult <- updateRef artifact refName gitapi ;;
  match updateResult with
  | None => throw (cannotRead "success" Null)
  | Some updateResult =>
      if res_success updateResult then
        emit (LogDebug "Ref updated!")
      else
        found <- doesRefExist artifact refName gitapi ;;
        if found then ret tt
        else
          permissionError (res_updateStatus updateResult) ;;
          emit (LogError
                  ("If you need to change permissions see: "
                   +:+ "_admin/_versioncontrol?_a=security&repositoryId="
                   +:+ art_repositoryId artifact)) ;;
          emit (SetResult TaskFailed
                  ("Unable to create ref: " +:+ refName
                   +:+ " UpdateStatus: "
                   +:+ showStatus (res_updateStatus updateResult)
                   +:+ " RepositoryId: " +:+ res_repositoryId updateResult
                   +:+ " Commit: " +:+ res_newObjectId updateResult))
  end.

Definition run : M W unit :=
  tryCatch
    (let token := getEndpointAuthorizationParameter host in
     collectionUrl <-
       match getEndpointUrl host with
       | Str url =>
           ret (replaceFirst url ".vsrm.visualstudio.com"
                  ".visualstudio.com")
       | v => throw (cannotRead "replace" v)
       end ;;
     match WebApi host collectionUrl token with
     | Throw e => throw e
     | Ok (gitapi, bldapi) =>
         artifactData <- getAllGitArtifacts bldapi ;;
         (if Nat.eqb (length artifactData) 0
          then emit (LogWarning "No TfsGit artifacts found.")
          else ret tt) ;;
         forEach artifactData
           (fun artifact => processArtifact artifact gitapi)
     end)
    (fun err => emit (SetResult TaskFailed (exn_message err))).

End GitRefCreator.

(** ** A version-control service *)

(** Modelled from the spec: the service behind [git.IGitApi] is an
    external collaborator and not among the sources.  The specification
    fixes the meaning of the all-zero expected prior commit id: the ref
    must not currently exist.  A repository is the sequence of its
    refs; a request for an unknown repository is rejected; [policy]
    stands for every other reason the service has to refuse a request
    (permissions, ref name, commit). *)
Module GitServer.

Abbreviation State := (gmap string (list GitRef)).

Definition Policy : Type := string -> GitRefUpdate -> option GitRefUpdateStatus.

Definition named (name : string) (x : GitRef) : bool :=
  String.eqb (ref_name x) name.

Definition result (repositoryId : string) (u : GitRefUpdate)
  (status : GitRefUpdateStatus) (success : bool) : GitRefUpdateResult :=
  {| res_success := success;
     res_updateStatus := status;
     res_repositoryId := repositoryId;
     res_newObjectId := toStr (upd_newObjectId u) |}.

Definition moveRef (name objectId : string) (x : GitRef) : GitRef :=
  if named name x then mkGitRef name objectId else x.

(** One request against the refs of a repository. *)
Definition applyUpdate (policy : Policy) (repositoryId : string)
  (refs : list GitRef) (u : GitRefUpdate)
  : list GitRef * GitRefUpdateResult :=
  match policy repositoryId u with
  | Some status => (refs, result repositoryId u status false)
  | None =>
      match upd_newObjectId u with
      | Str commit =>
          match List.find (named (upd_name u)) refs with
          | None =>
              if String.eqb (upd_oldObjectId u) zeroObjectId then
                (refs ++ [mkGitRef (upd_name u) commit],
                 result repositoryId u Succeeded true)
              else (refs, result repositoryId u OtherStatus false)
          | Some existing =>
              if String.eqb (upd_oldObjectId u) zeroObjectId then
                (refs, result repositoryId u OtherStatus false)
              else if String.eqb (upd_oldObjectId u) (ref_objectId existing)
              then
                (map (moveRef (upd_name u) commit) refs,
                 result repositoryId u Succeeded true)
              else (refs, result repositoryId u OtherStatus false)
          end
      | _ => (refs, result repositoryId u OtherStatus false)
      end
  end.

(** The requests in order, one result for each. *)
Fixpoint applyUpdates (policy : Policy) (repositoryId : string)
  (refs : list GitRef) (us : list GitRefUpdate)
  : list GitRef * list GitRefUpdateResult :=
  match us with
  | [] => (refs, [])
  | u :: us' =>
      match applyUpdate policy repositoryId refs u with
      | (refs1, r) =>
          match applyUpdates policy repositoryId refs1 us' with
          | (refs2, rs) => (refs2, r :: rs)
          end
      end
  end.

Definition unknownRepository (repositoryId : string) : Exn :=
  Rejection ("The repository " +:+ repositoryId +:+ " does not exist").

Definition api (policy : Policy) : IGitApi State :=
  {| getRefs := fun repositoryId (σ : State) =>
       match σ !! repositoryId with
       | Some refs => (Ok (Some refs), σ)
       | None => (Throw (unknownRepository repositoryId), σ)
       end;
     updateRefs := fun us repositoryId (σ : State) =>
       match σ !! repositoryId with
       | Some refs =>
           match applyUpdates policy repositoryId refs us with
           | (refs', rs) => (Ok (Some rs), <[repositoryId := refs']> σ)
           end
       | None => (Throw (unknownRepository repositoryId), σ)
       end |}.

Definition permitAll : Policy := fun _ _ => None.

End GitServer.

(** ** Vocabulary of the properties *)

(** The log lines of the [switch] on the update status. *)
Definition permissionEvents (status : GitRefUpdateStatus) : list Event :=
  match status with
  | CreateBranchPermissionRequired =>
      [LogError (permissionTemplate +:+ "Create Branch")]
  | CreateTagPermissionRequired =>
      [LogError (permissionTemplate +:+ "Create Tag")]
  | _ => []
  end.

(** The request that [updateRef] builds for an artifact. *)
Definition createRequest (refName : string) (artifact : IArtifactData)
  : GitRefUpdate :=
  {| upd_isLocked := false;
     upd_name := refName;
     upd_newObjectId := art_commit artifact;
     upd_oldObjectId := zeroObjectId;
     upd_repositoryId := art_repositoryId artifact |}.

Definition processingLine (refName : string) (artifact : IArtifactData)
  : Event :=
  LogDebug ("Processing artifact: '" +:+ art_name artifact
            +:+ "' for ref: " +:+ refName +:+ " new commit: "
            +:+ toStr (art_commit artifact)).

Definition permissionsPointer (artifact : IArtifactData) : Event :=
  LogError ("If you need to change permissions see: "
            +:+ "_admin/_versioncontrol?_a=security&repositoryId="
            +:+ art_repositoryId artifact).

Definition unableToCreate (refName : string)
  (showStatus : GitRefUpdateStatus -> string) (r : GitRefUpdateResult)
  : Event :=
  SetResult TaskFailed
    ("Unable to create ref: " +:+ refName +:+ " UpdateStatus: "
     +:+ showStatus (res_updateStatus r) +:+ " RepositoryId: "
     +:+ res_repositoryId r +:+ " Commit: " +:+ res_newObjectId r).



(** An event that is not an update of refs, or is one whose requests
    all expect the ref not to exist. *)
Definition createOnly (ev : Event) : Prop :=
  match ev with
  | CallUpdateRefs refUpdates _ =>
      Forall (fun u => upd_oldObjectId u = zeroObjectId) refUpdates
  | _ => True
  end.

(** The pattern object of [getAllGitArtifacts], compiled. *)
Definition artifactRegExp : JsRegExp.RegExp :=
  Eval vm_compute in
    match JsRegExp.RegExp_new artifactPattern "gi" with
    | Some regexp => regexp
    | None => JsRegExp.mkRegExp [] true true
    end.

(** The item of one character of a pattern text that has neither
    quantifiers nor groups. *)
Definition plainItem (c : ascii) : JsRegExp.Item :=
  JsRegExp.mkItem
    (if Ascii.eqb c "." then JsRegExp.CDot else JsRegExp.CLit c)
    JsRegExp.QOne false.

(** An item that stands for exactly one character and captures
    nothing. *)
Definition single (it : JsRegExp.Item) : Prop :=
  JsRegExp.iquant it = JsRegExp.QOne /\ JsRegExp.icapture it = false.

(** The same text up to the case of the letters. *)
Definition sameLetters (a b : string) : Prop :=
  map JsRegExp.canonicalize (list_ascii_of_string a)
  = map JsRegExp.canonicalize (list_ascii_of_string b).

Definition noLineTerminator (s : string) : Prop :=
  Forall (fun c => JsRegExp.isLineTerminator c = false)
    (list_ascii_of_string s).

(** The [lastIndex] of the pattern object after the scan of the given
    variables, from [lastIndex] before it. *)
Fixpoint lastIndexAfter (regexp : JsRegExp.RegExp)
  (variables : list VariableInfo) (lastIndex : nat) : nat :=
  match variables with
  | [] => lastIndex
  | v :: rest =>
      lastIndexAfter regexp rest
        (snd (JsRegExp.exec regexp lastIndex (vi_name v)))
  end.

(** The provider value is one of the two that discovery accepts. *)
Definition gitProvider (value : JSVal) : bool :=
  eqStr value "TfsGit" || eqStr value "Git".

(** Every event of the computation, from every world, satisfies [P]. *)
Definition emits {W A} (P : Event -> Prop) (m : M W A) : Prop :=
  forall w, Forall P (snd (m w)).

(** ** Scenarios

    Concrete hosts, services and artifacts on which the properties
    are exercised. *)
Module Scenario.

Definition tag : string := "refs/tags/v1".
Definition commit1 : string := "1111111111111111111111111111111111111111".
Definition commit2 : string := "2222222222222222222222222222222222222222".

(** A rendering of the status, as the number the client library
    prints for it. *)
Definition showStatus (s : GitRefUpdateStatus) : string :=
  match s with
  | Succeeded => "0"
  | CreateBranchPermissionRequired => "8"
  | CreateTagPermissionRequired => "9"
  | OtherStatus => "2"
  end.

Definition artifactA : IArtifactData := mkArtifact "A" (Str commit1) "repoA".
Definition artifactB : IArtifactData := mkArtifact "B" (Str commit2) "repoB".

(** The same artifact as [artifactA], released from [commit2]. *)
Definition artifactA2 : IArtifactData := mkArtifact "A" (Str commit2) "repoA".

(** Two repositories without refs. *)
Definition emptyRepos : GitServer.State :=
  {[ "repoA" := []; "repoB" := [] ]}.

(** [repoA] has the tag on [commit1] already. *)
Definition taggedRepos : GitServer.State :=
  {[ "repoA" := [mkGitRef tag commit1]; "repoB" := [] ]}.

(** A service that refuses to create tags. *)
Definition denyTags : GitServer.Policy :=
  fun _ _ => Some CreateTagPermissionRequired.

(** A service that refuses to create branches. *)
Definition denyBranches : GitServer.Policy :=
  fun _ _ => Some CreateBranchPermissionRequired.

(** A client whose ref listing comes back [null]. *)
Definition nullListing (g : IGitApi GitServer.State)
  : IGitApi GitServer.State :=
  {| getRefs := fun _ σ => (Ok None, σ); updateRefs := updateRefs g |}.

(** A client whose ref listing comes back empty. *)
Definition emptyListing (g : IGitApi GitServer.State)
  : IGitApi GitServer.State :=
  {| getRefs := fun _ σ => (Ok (Some []), σ); updateRefs := updateRefs g |}.

(** No build can be found. *)
Definition noBuilds : IBuildApi GitServer.State :=
  {| getBuild := fun _ σ => (Throw (Rejection "Build not found"), σ) |}.

(** The variables of the release as an association list; a variable
    that is not set reads as [undefined]. *)
Fixpoint lookupVariable (kvs : list (string * string)) (key : string)
  : JSVal :=
  match kvs with
  | [] => Undefined
  | (k, v) :: kvs' =>
      if String.eqb k key then Str v else lookupVariable kvs' key
  end.

(** A host with the given scan order and variables, no task inputs
    set, and a connection that hands out the given clients. *)
Definition hostOf (scan : list VariableInfo) (kvs : list (string * string))
  (gitapi : IGitApi GitServer.State) (bldapi : IBuildApi GitServer.State)
  : Host GitServer.State :=
  {| getVariables := scan;
     getVariable := lookupVariable kvs;
     getInput := fun _ => Undefined;
     getEndpointAuthorizationParameter := Str "token";
     getEndpointUrl := Str "https://fabrikam.vsrm.visualstudio.com/";
     WebApi := fun _ _ => Ok (gitapi, bldapi) |}.

Definition bareHost : Host GitServer.State :=
  hostOf [] [] (GitServer.api GitServer.permitAll) noBuilds.

(** A host that scans its variables in the order of the list. *)
Definition releaseHost (kvs : list (string * string))
  (gitapi : IGitApi GitServer.State) (bldapi : IBuildApi GitServer.State)
  : Host GitServer.State :=
  hostOf (map (fun kv => mkVariableInfo (fst kv) (Str (snd kv))) kvs)
    kvs gitapi bldapi.

(** A release with the two artifacts, each with its repository id. *)
Definition twoArtifacts : list (string * string) :=
  [ ("RELEASE.ARTIFACTS.A.REPOSITORY.PROVIDER", "Git");
    ("RELEASE.ARTIFACTS.A.REPOSITORY_ID", "repoA");
    ("RELEASE.ARTIFACTS.A.SOURCEVERSION", commit1);
    ("RELEASE.ARTIFACTS.B.REPOSITORY.PROVIDER", "TfsGit");
    ("RELEASE.ARTIFACTS.B.REPOSITORY_ID", "repoB");
    ("RELEASE.ARTIFACTS.B.SOURCEVERSION", commit2) ].

(** The same variables, the two provider keys first. *)
Definition twoArtifactsProvidersFirst : list (string * string) :=
  [ ("RELEASE.ARTIFACTS.A.REPOSITORY.PROVIDER", "Git");
    ("RELEASE.ARTIFACTS.B.REPOSITORY.PROVIDER", "TfsGit");
    ("RELEASE.ARTIFACTS.A.REPOSITORY_ID", "repoA");
    ("RELEASE.ARTIFACTS.A.SOURCEVERSION", commit1);
    ("RELEASE.ARTIFACTS.B.REPOSITORY_ID", "repoB");
    ("RELEASE.ARTIFACTS.B.SOURCEVERSION", commit2) ].

(** Artifact A has neither a repository id nor a build id; artifact B
    has its repository id. *)
Definition unresolvedThenResolved : list (string * string) :=
  [ ("RELEASE.ARTIFACTS.A.REPOSITORY.PROVIDER", "Git");
    ("RELEASE.ARTIFACTS.A.SOURCEVERSION", commit1);
    ("RELEASE.ARTIFACTS.B.REPOSITORY.PROVIDER", "TfsGit");
    ("RELEASE.ARTIFACTS.B.REPOSITORY_ID", "repoB");
    ("RELEASE.ARTIFACTS.B.SOURCEVERSION", commit2) ].

(** The same release with A's build id set to the empty text. *)
Definition emptyBuildIdThenResolved : list (string * string) :=
  [ ("RELEASE.ARTIFACTS.A.REPOSITORY.PROVIDER", "Git");
    ("RELEASE.ARTIFACTS.A.BUILDID", "");
    ("RELEASE.ARTIFACTS.A.SOURCEVERSION", commit1);
    ("RELEASE.ARTIFACTS.B.REPOSITORY.PROVIDER", "TfsGit");
    ("RELEASE.ARTIFACTS.B.REPOSITORY_ID", "repoB");
    ("RELEASE.ARTIFACTS.B.SOURCEVERSION", commit2) ].

(** The same variables again, the two provider keys first. *)
Definition emptyBuildIdProvidersFirst : list (string * string) :=
  [ ("RELEASE.ARTIFACTS.A.REPOSITORY.PROVIDER", "Git");
    ("RELEASE.ARTIFACTS.B.REPOSITORY.PROVIDER", "TfsGit");
    ("RELEASE.ARTIFACTS.A.BUILDID", "");
    ("RELEASE.ARTIFACTS.A.SOURCEVERSION", commit1);
    ("RELEASE.ARTIFACTS.B.REPOSITORY_ID", "repoB");
    ("RELEASE.ARTIFACTS.B.SOURCEVERSION", commit2) ].

(** Artifact A has a provider and a repository id, and no commit. *)
Definition noCommit : list (string * string) :=
  [ ("RELEASE.ARTIFACTS.A.REPOSITORY.PROVIDER", "Git");
    ("RELEASE.ARTIFACTS.A.REPOSITORY_ID", "repoA") ].

(** Artifact B without a commit: its SOURCEVERSION variable is not
    set. *)
Definition artifactBNoCommit : IArtifactData :=
  mkArtifact "B" Undefined "repoB".

(** A release with the artifacts A and B in which B's SOURCEVERSION
    is not set, the two provider keys first. *)
Definition unsetCommitProvidersFirst : list (string * string) :=
  [ ("RELEASE.ARTIFACTS.A.REPOSITORY.PROVIDER", "Git");
    ("RELEASE.ARTIFACTS.B.REPOSITORY.PROVIDER", "TfsGit");
    ("RELEASE.ARTIFACTS.A.REPOSITORY_ID", "repoA");
    ("RELEASE.ARTIFACTS.A.SOURCEVERSION", commit1);
    ("RELEASE.ARTIFACTS.B.REPOSITORY_ID", "repoB") ].

(** The same variables, each artifact's own together. *)
Definition unsetCommitSeparated : list (string * string) :=
  [ ("RELEASE.ARTIFACTS.A.REPOSITORY.PROVIDER", "Git");
    ("RELEASE.ARTIFACTS.A.REPOSITORY_ID", "repoA");
    ("RELEASE.ARTIFACTS.A.SOURCEVERSION", commit1);
    ("RELEASE.ARTIFACTS.B.REPOSITORY.PROVIDER", "TfsGit");
    ("RELEASE.ARTIFACTS.B.REPOSITORY_ID", "repoB") ].

(** The release of [unsetCommitProvidersFirst] with B's SOURCEVERSION
    set, scanned between the two provider keys. *)
Definition commitBetweenProviders : list (string * string) :=
  [ ("RELEASE.ARTIFACTS.A.REPOSITORY.PROVIDER", "Git");
    ("RELEASE.ARTIFACTS.B.SOURCEVERSION", commit2);
    ("RELEASE.ARTIFACTS.B.REPOSITORY.PROVIDER", "TfsGit");
    ("RELEASE.ARTIFACTS.A.REPOSITORY_ID", "repoA");
    ("RELEASE.ARTIFACTS.A.SOURCEVERSION", commit1);
    ("RELEASE.ARTIFACTS.B.REPOSITORY_ID", "repoB") ].

(** A client that gets no result for updates in the given repository
    and is [g] elsewhere. *)
Definition silentFor (repositoryId : string) (g : IGitApi GitServer.State)
  : IGitApi GitServer.State :=
  {| getRefs := getRefs g;
     updateRefs := fun us repo σ =>
       if String.eqb repo repositoryId then (Ok (Some []), σ)
       else updateRefs g us repo σ |}.

(** A release whose artifact A has only a build id. *)
Definition legacyArtifact : list (string * string) :=
  [ ("RELEASE.ARTIFACTS.A.REPOSITORY.PROVIDER", "Git");
    ("RELEASE.ARTIFACTS.A.BUILDID", "7");
    ("RELEASE.ARTIFACTS.A.SOURCEVERSION", commit1) ].

(** A build client that knows build 7, with the given repository id. *)
Definition buildSeven (repositoryId : JSVal) : IBuildApi GitServer.State :=
  {| getBuild := fun n σ =>
       match n with
       | Num 7 => (Ok (Some (mkBuild (Some repositoryId))), σ)
       | _ => (Throw (Rejection "Build not found"), σ)
       end |}.

(** A release whose artifact is named with a dot, its provider key in
    lower case. *)
Definition dottedName : list (string * string) :=
  [ ("release.artifacts.My.Art.repository.provider", "Git");
    ("RELEASE.ARTIFACTS.My.Art.REPOSITORY_ID", "repoA");
    ("RELEASE.ARTIFACTS.My.Art.SOURCEVERSION", commit1) ].

(** A client that refuses every update with the given status and
    lists no refs. *)
Definition refusing (status : GitRefUpdateStatus) : IGitApi GitServer.State :=
  {| getRefs := fun _ σ => (Ok (Some []), σ);
     updateRefs := fun us repositoryId σ =>
       (Ok (Some (map (fun u =>
                         GitServer.result repositoryId u status false) us)),
        σ) |}.

(** A release without Git artifacts. *)
Definition noGitArtifacts : list (string * string) :=
  [ ("BUILD.REPOSITORY.PROVIDER", "Git");
    ("RELEASE.ARTIFACTS.Drop.REPOSITORY.PROVIDER", "Svn");
    ("RELEASE.ARTIFACTS.Drop.SOURCEVERSION", "4711") ].

(** A host whose replacement input is a dash, the other inputs not
    set. *)
Definition dashHost : Host GitServer.State :=
  {| getVariables := [];
     getVariable := fun _ => Undefined;
     getInput := fun name =>
       if String.eqb name "replacePattern" then Str "-" else Undefined;
     getEndpointAuthorizationParameter := Str "token";
     getEndpointUrl := Str "https://fabrikam.vsrm.visualstudio.com/";
     WebApi := fun _ _ =>
       Ok (GitServer.api GitServer.permitAll, noBuilds) |}.

(** The host [h] with a connection that cannot be built. *)
Definition unreachable (message : string) (h : Host GitServer.State)
  : Host GitServer.State :=
  {| getVariables := getVariables h;
     getVariable := getVariable h;
     getInput := getInput h;
     getEndpointAuthorizationParameter := getEndpointAuthorizationParameter h;
     getEndpointUrl := getEndpointUrl h;
     WebApi := fun _ _ => Throw (Rejection message) |}.

(** The host [h] with a connection factory that serves one collection
    URL only. *)
Definition servedAt (collectionUrl : string) (h : Host GitServer.State)
  : Host GitServer.State :=
  {| getVariables := getVariables h;
     getVariable := getVariable h;
     getInput := getInput h;
     getEndpointAuthorizationParameter := getEndpointAuthorizationParameter h;
     getEndpointUrl := getEndpointUrl h;
     WebApi := fun url token =>
       if String.eqb url collectionUrl then WebApi h url token
       else Throw (Rejection ("No collection at " +:+ url)) |}.

End Scenario.


(** ** Vocabulary of the further properties *)

(** The key of a variable of an artifact. *)
Definition artifactKey (name suffix : string) : string :=
  "RELEASE.ARTIFACTS." +:+ name +:+ suffix.

(** What discovery may log or call: debug lines, build lookups, and
    the failure of a build id that is [null] or empty. *)
Definition discoveryEvent (ev : Event) : Prop :=
  match ev with
  | LogDebug _ | CallGetBuild _ => True
  | SetResult TaskFailed message =>
      exists name,
        message = "Unable to get build id from variable: "
                  +:+ artifactKey name ".BUILDID"
  | _ => False
  end.

Definition isDebug (ev : Event) : Prop :=
  match ev with
  | LogDebug _ => True
  | _ => False
  end.

(** The variable is a provider key that the scan can match, from
    some start index, with an accepted provider value; [name] is what
    the group captures there. *)
Definition providerOf (v : VariableInfo) (name : string) : Prop :=
  gitProvider (vi_value v) = true
  /\ exists lastIndex m lastIndex',
       JsRegExp.exec artifactRegExp lastIndex (vi_name v)
       = (Some m, lastIndex')
       /\ name = JsRegExp.group m 1.

(** The least number of characters that a match of the items takes. *)
Definition minLength (p : list JsRegExp.Item) : nat :=
  list_sum (map (fun it => JsRegExp.minCount (JsRegExp.iquant it)) p).

(** The text without its white space. *)
Definition stripWhiteSpace (s : string) : string :=
  string_of_list_ascii
    (List.filter (fun c => negb (JsRegExp.isWhiteSpace c))
       (list_ascii_of_string s)).

(** The input after its leading white space. *)
Fixpoint dropWhiteSpace (s : list ascii) : list ascii :=
  match s with
  | c :: s' => if JsRegExp.isWhiteSpace c then dropWhiteSpace s' else s
  | [] => []
  end.

(** The default rule of [generateRef], compiled. *)
Definition whiteSpaceRegExp : JsRegExp.RegExp :=
  Eval vm_compute in
    match JsRegExp.RegExp_new defaultSearchPattern defaultRegexFlags with
    | Some regexp => regexp
    | None => JsRegExp.mkRegExp [] true false
    end.

Definition isClientCall (ev : Event) : bool :=
  match ev with
  | CallGetBuild _ | CallGetRefs _ | CallUpdateRefs _ _ => true
  | _ => false
  end.

(** The calls to the clients among the events, in order. *)
Definition clientCalls (t : list Event) : list Event :=
  List.filter isClientCall t.

(** The create request of an artifact, as a call. *)
Definition createCall (refName : string) (artifact : IArtifactData) : Event :=
  CallUpdateRefs [createRequest refName artifact] (art_repositoryId artifact).

(** A version-control client that answers every call: each update of
    at least one request with at least one result, each listing with
    a list or [null]. *)
Definition answers {W} (gitapi : IGitApi W) : Prop :=
  (forall u us repositoryId w,
      exists r rs w1,
        updateRefs gitapi (u :: us) repositoryId w
        = (Ok (Some (r :: rs)), w1))
  /\ (forall repositoryId w,
        exists listing w1,
          getRefs gitapi repositoryId w = (Ok listing, w1)).

Definition isUpdateCall (ev : Event) : bool :=
  match ev with
  | CallUpdateRefs _ _ => true
  | _ => false
  end.

(** The update calls among the events, in order. *)
Definition updateCalls (t : list Event) : list Event :=
  List.filter isUpdateCall t.

(** The input with every run of white space replaced by [repl];
    [inRun] says that the character before was white space. *)
Fixpoint replaceRuns (repl : list ascii) (inRun : bool) (s : list ascii)
  : list ascii :=
  match s with
  | [] => []
  | c :: s' =>
      if JsRegExp.isWhiteSpace c then
        if inRun then replaceRuns repl true s'
        else repl ++ replaceRuns repl true s'
      else c :: replaceRuns repl false s'
  end.

(** The text with every run of white space replaced by the
    replacement. *)
Definition replaceWhiteSpace (replacement s : string) : string :=
  string_of_list_ascii
    (replaceRuns (list_ascii_of_string replacement) false
       (list_ascii_of_string s)).

(** The text is ASCII: every character is a code unit below 128, the
    range on which [JsRegExp] models the character classes. *)
Definition asciiText (s : string) : bool :=
  forallb (fun c => Nat.ltb (JsRegExp.code c) 128) (list_ascii_of_string s).

(** Two hosts that differ at most in the connection factory. *)
Definition sameButWebApi {W} (h h' : Host W) : Prop :=
  getVariables h = getVariables h'
  /\ (forall key, getVariable h key = getVariable h' key)
  /\ (forall name, getInput h name = getInput h' name)
  /\ getEndpointAuthorizationParameter h = getEndpointAuthorizationParameter h'
  /\ getEndpointUrl h = getEndpointUrl h'.


(** * Properties *)

(** ** Running a computation *)

Section MonadFacts.
Context {W : Type}.

Lemma run_emit_bind {B} (ev : Event) (k : unit -> M W B) (w : W) :
  bind (emit ev) k w =
  match k tt w with (r, w', t) => (r, w', ev :: t) end.
Proof. unfold bind, emit. destruct (k tt w) as [[r w'] t]. reflexivity. Qed.

Lemma run_ret_bind {A B} (a : A) (k : A -> M W B) (w : W) :
  bind (ret a) k w = k a w.
Proof. unfold bind, ret. destruct (k a w) as [[r w'] t]. reflexivity. Qed.

Lemma run_throw_bind {A B} (e : Exn) (k : A -> M W B) (w : W) :
  bind (throw e) k w = (Throw e, w, []).
Proof. reflexivity. Qed.

Lemma run_bind_ok {A B} (m : M W A) (k : A -> M W B) w a w1 t1 :
  m w = (Ok a, w1, t1) ->
  bind m k w = match k a w1 with (r, w2, t2) => (r, w2, t1 ++ t2) end.
Proof. intros H. unfold bind. rewrite H. reflexivity. Qed.

Lemma run_bind_throw {A B} (m : M W A) (k : A -> M W B) w e w1 t1 :
  m w = (Throw e, w1, t1) ->
  bind m k w = (Throw e, w1, t1).
Proof. intros H. unfold bind. rewrite H. reflexivity. Qed.

Lemma run_call {A} (ev : Event) (f : W -> Res A * W) w r w1 :
  f w = (r, w1) -> call ev f w = (r, w1, [ev]).
Proof. intros H. unfold call. rewrite H. reflexivity. Qed.

End MonadFacts.

Lemma permissionError_events {W} (status : GitRefUpdateStatus) (w : W) :
  permissionError status w = (Ok tt, w, permissionEvents status).
Proof. destruct status; reflexivity. Qed.

(** ** The reconciler, step by step *)

Section Reconciler.
Context {W : Type}.
Variable refName : string.
Variable showStatus : GitRefUpdateStatus -> string.
Variable artifact : IArtifactData.
Variable gitapi : IGitApi W.

Let repo := art_repositoryId artifact.
Let request := createRequest refName artifact.

(** The create attempt succeeded: nothing else happens. *)
Lemma processArtifact_updated w r rs w1 :
  updateRefs gitapi [request] repo w = (Ok (Some (r :: rs)), w1) ->
  res_success r = true ->
  processArtifact refName showStatus artifact gitapi w =
  (Ok tt, w1,
   [processingLine refName artifact; CallUpdateRefs [request] repo;
    LogDebug "Ref updated!"]).
Proof.
  intros Hupd Hok. unfold processArtifact, updateRef.
  rewrite run_emit_bind. unfold bind at 1. unfold bind at 1.
  erewrite run_call by exact Hupd. cbn. rewrite Hok. reflexivity.
Qed.

(** The create attempt failed: the divergence check decides. *)
Lemma processArtifact_failed_create w r rs w1 found w2 t2 :
  updateRefs gitapi [request] repo w = (Ok (Some (r :: rs)), w1) ->
  res_success r = false ->
  doesRefExist artifact refName gitapi w1 = (Ok found, w2, t2) ->
  processArtifact refName showStatus artifact gitapi w =
  (Ok tt, w2,
   [processingLine refName artifact; CallUpdateRefs [request] repo]
     ++ t2
     ++ (if found then []
         else permissionEvents (res_updateStatus r)
                ++ [permissionsPointer artifact;
                    unableToCreate refName showStatus r])).
Proof.
  intros Hupd Hfail Hex. unfold processArtifact, updateRef.
  rewrite run_emit_bind. unfold bind at 1. unfold bind at 1.
  erewrite run_call by exact Hupd. cbn. rewrite Hfail.
  unfold bind at 1. rewrite Hex. destruct found; cbn.
  - rewrite app_nil_r. reflexivity.
  - unfold bind at 1. rewrite permissionError_events. cbn.
    reflexivity.
Qed.

(** No result from [updateRefs]: the warning, then the read of
    [success] on [null] throws. *)
Lemma processArtifact_no_result w res w1 :
  updateRefs gitapi [request] repo w = (Ok res, w1) ->
  res = None \/ res = Some [] ->
  processArtifact refName showStatus artifact gitapi w =
  (Throw (cannotRead "success" Null), w1,
   [processingLine refName artifact; CallUpdateRefs [request] repo;
    LogWarning "No update result returned from updateRefs"]).
Proof.
  intros Hupd Hres. unfold processArtifact, updateRef.
  rewrite run_emit_bind. unfold bind at 1. unfold bind at 1.
  erewrite run_call by exact Hupd.
  destruct Hres as [-> | ->]; reflexivity.
Qed.

End Reconciler.


(** ** The service *)

Section ServerFacts.
Import GitServer.
Variable policy : Policy.

Lemma find_app_new (refs : list GitRef) (name objectId : string) :
  List.find (named name) refs = None ->
  List.find (named name) (refs ++ [mkGitRef name objectId])
  = Some (mkGitRef name objectId).
Proof.
  intros Hnone. induction refs as [|x refs IH]; cbn.
  - unfold named; cbn. rewrite String.eqb_refl. reflexivity.
  - cbn in Hnone. destruct (named name x); [discriminate | auto].
Qed.

(** Creating a ref that does not exist, when the service permits. *)
Lemma updateRefs_creates (σ : State) refName artifact commit refs :
  art_commit artifact = Str commit ->
  σ !! art_repositoryId artifact = Some refs ->
  List.find (named refName) refs = None ->
  policy (art_repositoryId artifact) (createRequest refName artifact) = None ->
  updateRefs (api policy) [createRequest refName artifact]
    (art_repositoryId artifact) σ
  = (Ok (Some [result (art_repositoryId artifact)
                 (createRequest refName artifact) Succeeded true]),
     <[art_repositoryId artifact := refs ++ [mkGitRef refName commit]]> σ).
Proof.
  intros Hc Hrepo Hfind Hpol. cbn. rewrite Hrepo. cbn.
  unfold applyUpdate. rewrite Hpol. cbn. rewrite Hc, Hfind. reflexivity.
Qed.

(** Creating a ref that exists: refused, whatever the policy, and the
    repositories stay as they are. *)
Lemma updateRefs_existing (σ : State) refName artifact refs existing :
  σ !! art_repositoryId artifact = Some refs ->
  List.find (named refName) refs = Some existing ->
  exists r,
    updateRefs (api policy) [createRequest refName artifact]
      (art_repositoryId artifact) σ = (Ok (Some [r]), σ)
    /\ res_success r = false
    /\ applyUpdate policy (art_repositoryId artifact) refs
         (createRequest refName artifact) = (refs, r).
Proof.
  intros Hrepo Hfind. cbn. rewrite Hrepo. cbn.
  unfold applyUpdate.
  destruct (policy _ _) as [status|]; cbn.
  - eexists. rewrite insert_id by exact Hrepo. eauto.
  - destruct (art_commit artifact); cbn;
      try rewrite Hfind; cbn;
      eexists; rewrite insert_id by exact Hrepo; eauto.
Qed.

(** The divergence check against the service. *)
Lemma doesRefExist_found (σ : State) refName artifact refs existing :
  σ !! art_repositoryId artifact = Some refs ->
  List.find (named refName) refs = Some existing ->
  doesRefExist artifact refName (api policy) σ
  = if strictEq (Str (ref_objectId existing)) (art_commit artifact)
    then (Ok true, σ,
          [CallGetRefs (art_repositoryId artifact);
           LogDebug "Found matching ref for commit."])
    else (Ok false, σ,
          [CallGetRefs (art_repositoryId artifact);
           LogWarning ("Ref exists, but on different commit. New commit: "
                       +:+ toStr (art_commit artifact) +:+ " Old Commit: "
                       +:+ ref_objectId existing)]).
Proof.
  intros Hrepo Hfind. unfold doesRefExist, bind.
  erewrite run_call; [| cbn; rewrite Hrepo; reflexivity].
  cbv beta iota. change (fun x : GitRef => String.eqb (ref_name x) refName)
    with (named refName).
  rewrite Hfind.
  destruct (strictEq _ _); reflexivity.
Qed.

End ServerFacts.

(** ** Ref name derivation *)

(** C7: with the three inputs at their defaults (unset, or set to the
    default texts), deriving the ref name of release "My Release 1"
    under the prefix "refs/tags/" returns "refs/tags/MyRelease1"; the
    run logs the rule and the name and leaves the world alone. *)
Theorem generateRef_default {W} (host : Host W) (w : W) :
  getInputOrDefault host "searchRegex" defaultSearchPattern = "\s+" ->
  getInputOrDefault host "regexFlags" defaultRegexFlags = "g" ->
  getInputOrDefault host "replacePattern" defaultReplacePattern = "" ->
  generateRef host "My Release 1" "refs/tags/" w
  = (Ok "refs/tags/MyRelease1", w,
     [LogDebug "Search Regex: '\s+', Replace Pattern: '', flags: 'g'";
      LogDebug "RefName: 'refs/tags/MyRelease1'"]).
Proof.
  intros Hs Hf Hr. unfold generateRef. rewrite Hs, Hf, Hr.
  reflexivity.
Qed.

Lemma generateRef_default_witness :
  generateRef Scenario.bareHost "My Release 1" "refs/tags/"
    Scenario.emptyRepos
  = (Ok "refs/tags/MyRelease1", Scenario.emptyRepos,
     [LogDebug "Search Regex: '\s+', Replace Pattern: '', flags: 'g'";
      LogDebug "RefName: 'refs/tags/MyRelease1'"]).
Proof. apply generateRef_default; reflexivity. Defined.

(** ** Reconciliation *)

(** C8: when the create attempt fails and the divergence check finds
    no matching ref, a status of CreateBranchPermissionRequired logs
    the error that names the "Create Branch" permission, and one of
    CreateTagPermissionRequired the error that names "Create Tag"; in
    both cases the next log line is the error that points to the
    permissions administration of the artifact's repository. *)
Theorem permission_denial_messages {W} (refName : string)
  (showStatus : GitRefUpdateStatus -> string) (artifact : IArtifactData)
  (gitapi : IGitApi W) (w w1 w2 : W) (r : GitRefUpdateResult)
  (rs : list GitRefUpdateResult) (t2 : list Event) :
  updateRefs gitapi [createRequest refName artifact]
    (art_repositoryId artifact) w = (Ok (Some (r :: rs)), w1) ->
  res_success r = false ->
  doesRefExist artifact refName gitapi w1 = (Ok false, w2, t2) ->
  (res_updateStatus r = CreateBranchPermissionRequired ->
   processArtifact refName showStatus artifact gitapi w
   = (Ok tt, w2,
      [processingLine refName artifact;
       CallUpdateRefs [createRequest refName artifact]
         (art_repositoryId artifact)]
        ++ t2
        ++ [LogError "You must grant the build account access to permission: Create Branch";
            LogError ("If you need to change permissions see: "
                      +:+ "_admin/_versioncontrol?_a=security&repositoryId="
                      +:+ art_repositoryId artifact);
            unableToCreate refName showStatus r]))
  /\
  (res_updateStatus r = CreateTagPermissionRequired ->
   processArtifact refName showStatus artifact gitapi w
   = (Ok tt, w2,
      [processingLine refName artifact;
       CallUpdateRefs [createRequest refName artifact]
         (art_repositoryId artifact)]
        ++ t2
        ++ [LogError "You must grant the build account access to permission: Create Tag";
            LogError ("If you need to change permissions see: "
                      +:+ "_admin/_versioncontrol?_a=security&repositoryId="
                      +:+ art_repositoryId artifact);
            unableToCreate refName showStatus r])).
Proof.
  intros Hupd Hfail Hex.
  pose proof (processArtifact_failed_create refName showStatus artifact
                gitapi w r rs w1 false w2 t2 Hupd Hfail Hex) as Hrun.
  split; intros Hst; rewrite Hrun, Hst; reflexivity.
Qed.

Lemma permission_denial_messages_witness :
  processArtifact Scenario.tag Scenario.showStatus Scenario.artifactA
    (GitServer.api Scenario.denyTags) Scenario.emptyRepos
  = (Ok tt, Scenario.emptyRepos,
     [LogDebug ("Processing artifact: 'A' for ref: refs/tags/v1 new commit: "
                +:+ Scenario.commit1);
      CallUpdateRefs [createRequest Scenario.tag Scenario.artifactA] "repoA";
      CallGetRefs "repoA";
      LogError "You must grant the build account access to permission: Create Tag";
      LogError "If you need to change permissions see: _admin/_versioncontrol?_a=security&repositoryId=repoA";
      SetResult TaskFailed
        ("Unable to create ref: refs/tags/v1 UpdateStatus: 9 RepositoryId: repoA Commit: "
         +:+ Scenario.commit1)]).
Proof.
  refine (proj2 (permission_denial_messages Scenario.tag Scenario.showStatus
                   Scenario.artifactA (GitServer.api Scenario.denyTags)
                   Scenario.emptyRepos Scenario.emptyRepos Scenario.emptyRepos
                   (GitServer.result "repoA"
                      (createRequest Scenario.tag Scenario.artifactA)
                      CreateTagPermissionRequired false)
                   [] [CallGetRefs "repoA"] _ _ _) _);
    vm_compute; reflexivity.
Defined.

(** C10: when the create attempt fails and the ref listing comes back
    [null], the divergence check answers false without an exception
    and the reconciler goes on to classify and fail; the run is the
    one of a client whose listing is empty. *)
Theorem null_ref_listing_is_no_ref {W} (refName : string)
  (showStatus : GitRefUpdateStatus -> string) (artifact : IArtifactData)
  (nullApi emptyApi : IGitApi W) (w w1 w2 : W) (r : GitRefUpdateResult)
  (rs : list GitRefUpdateResult) :
  updateRefs emptyApi = updateRefs nullApi ->
  updateRefs nullApi [createRequest refName artifact]
    (art_repositoryId artifact) w = (Ok (Some (r :: rs)), w1) ->
  res_success r = false ->
  getRefs nullApi (art_repositoryId artifact) w1 = (Ok None, w2) ->
  getRefs emptyApi (art_repositoryId artifact) w1 = (Ok (Some []), w2) ->
  doesRefExist artifact refName nullApi w1
  = (Ok false, w2, [CallGetRefs (art_repositoryId artifact)])
  /\ processArtifact refName showStatus artifact nullApi w
     = (Ok tt, w2,
        [processingLine refName artifact;
         CallUpdateRefs [createRequest refName artifact]
           (art_repositoryId artifact);
         CallGetRefs (art_repositoryId artifact)]
          ++ permissionEvents (res_updateStatus r)
          ++ [permissionsPointer artifact;
              unableToCreate refName showStatus r])
  /\ processArtifact refName showStatus artifact nullApi w
     = processArtifact refName showStatus artifact emptyApi w.
Proof.
  intros Hsame Hupd Hfail Hnull Hempty.
  assert (Hex1 : doesRefExist artifact refName nullApi w1
                 = (Ok false, w2, [CallGetRefs (art_repositoryId artifact)])).
  { unfold doesRefExist, bind. erewrite run_call by exact Hnull.
    reflexivity. }
  assert (Hex2 : doesRefExist artifact refName emptyApi w1
                 = (Ok false, w2, [CallGetRefs (art_repositoryId artifact)])).
  { unfold doesRefExist, bind. erewrite run_call by exact Hempty.
    reflexivity. }
  split; [exact Hex1 |].
  rewrite (processArtifact_failed_create refName showStatus artifact
             nullApi w r rs w1 false w2 _ Hupd Hfail Hex1).
  split; [reflexivity |].
  rewrite <- Hsame in Hupd.
  rewrite (processArtifact_failed_create refName showStatus artifact
             emptyApi w r rs w1 false w2 _ Hupd Hfail Hex2).
  reflexivity.
Qed.

Lemma null_ref_listing_is_no_ref_witness :
  processArtifact Scenario.tag Scenario.showStatus Scenario.artifactA
    (Scenario.nullListing (GitServer.api Scenario.denyBranches))
    Scenario.emptyRepos
  = processArtifact Scenario.tag Scenario.showStatus Scenario.artifactA
      (Scenario.emptyListing (GitServer.api Scenario.denyBranches))
      Scenario.emptyRepos.
Proof.
  refine (proj2 (proj2
    (null_ref_listing_is_no_ref Scenario.tag Scenario.showStatus
       Scenario.artifactA
       (Scenario.nullListing (GitServer.api Scenario.denyBranches))
       (Scenario.emptyListing (GitServer.api Scenario.denyBranches))
       Scenario.emptyRepos Scenario.emptyRepos Scenario.emptyRepos
       (GitServer.result "repoA"
          (createRequest Scenario.tag Scenario.artifactA)
          CreateBranchPermissionRequired false)
       [] _ _ _ _ _)));
    vm_compute; reflexivity.
Defined.

(** C1: reconciling an artifact with a fixed commit twice against the
    service, where the first run creates the ref: the first run ends
    in Updated (the log says "Ref updated!"); in the second run the
    create attempt is refused because the ref exists, the divergence
    check finds it on the same commit, and the run ends in
    AlreadyCorrect (the log says "Found matching ref for commit.").
    Neither run logs the divergence warning or marks the task failed,
    and the second run leaves the repositories as the first left
    them. *)
Theorem reconcile_twice (policy : GitServer.Policy) (refName : string)
  (showStatus : GitRefUpdateStatus -> string) (name commit repositoryId : string)
  (σ : GitServer.State) (refs : list GitRef) :
  let artifact := mkArtifact name (Str commit) repositoryId in
  let request := createRequest refName artifact in
  let σ1 : GitServer.State :=
    <[repositoryId := refs ++ [mkGitRef refName commit]]> σ in
  σ !! repositoryId = Some refs ->
  List.find (GitServer.named refName) refs = None ->
  policy repositoryId request = None ->
  processArtifact refName showStatus artifact (GitServer.api policy) σ
  = (Ok tt, σ1,
     [processingLine refName artifact;
      CallUpdateRefs [request] repositoryId;
      LogDebug "Ref updated!"])
  /\ processArtifact refName showStatus artifact (GitServer.api policy) σ1
     = (Ok tt, σ1,
        [processingLine refName artifact;
         CallUpdateRefs [request] repositoryId;
         CallGetRefs repositoryId;
         LogDebug "Found matching ref for commit."]).
Proof.
  intros artifact request σ1 Hrepo Hfind Hpol. split.
  - eapply processArtifact_updated.
    + apply (updateRefs_creates policy σ refName artifact commit refs);
        [reflexivity | exact Hrepo | exact Hfind | exact Hpol].
    + reflexivity.
  - assert (Hrepo1 : σ1 !! art_repositoryId artifact
                     = Some (refs ++ [mkGitRef refName commit])).
    { subst σ1. cbn. apply lookup_insert_eq. }
    pose proof (find_app_new refs refName commit Hfind) as Hfind1.
    destruct (updateRefs_existing policy σ1 refName artifact _ _
                Hrepo1 Hfind1) as (r & Hupd & Hfail & _).
    rewrite (processArtifact_failed_create refName showStatus artifact
               (GitServer.api policy) σ1 r [] σ1 true σ1
               [CallGetRefs repositoryId;
                LogDebug "Found matching ref for commit."] Hupd Hfail).
    + reflexivity.
    + rewrite (doesRefExist_found policy σ1 refName artifact _ _
                 Hrepo1 Hfind1).
      cbn. rewrite String.eqb_refl. reflexivity.
Qed.

Lemma reconcile_twice_witness :
  let σ1 : GitServer.State :=
    <["repoA" := [mkGitRef Scenario.tag Scenario.commit1]]>
      Scenario.emptyRepos in
  processArtifact Scenario.tag Scenario.showStatus Scenario.artifactA
    (GitServer.api GitServer.permitAll) Scenario.emptyRepos
  = (Ok tt, σ1,
     [processingLine Scenario.tag Scenario.artifactA;
      CallUpdateRefs [createRequest Scenario.tag Scenario.artifactA] "repoA";
      LogDebug "Ref updated!"])
  /\ processArtifact Scenario.tag Scenario.showStatus Scenario.artifactA
       (GitServer.api GitServer.permitAll) σ1
     = (Ok tt, σ1,
        [processingLine Scenario.tag Scenario.artifactA;
         CallUpdateRefs [createRequest Scenario.tag Scenario.artifactA]
           "repoA";
         CallGetRefs "repoA";
         LogDebug "Found matching ref for commit."]).
Proof.
  apply (reconcile_twice GitServer.permitAll Scenario.tag Scenario.showStatus
           "A" Scenario.commit1 "repoA" Scenario.emptyRepos []);
    reflexivity.
Defined.

(** C3 as stated fails: [repoA] has the tag on [commit1], the
    artifact is released from [commit2]; the run warns about the
    divergence and then marks the task failed. *)
Lemma divergence_marks_failed_example :
  List.find (GitServer.named Scenario.tag)
    [mkGitRef Scenario.tag Scenario.commit1]
  = Some (mkGitRef Scenario.tag Scenario.commit1)
  /\ strictEq (Str Scenario.commit1) (art_commit Scenario.artifactA2) = false
  /\ processArtifact Scenario.tag Scenario.showStatus Scenario.artifactA2
       (GitServer.api GitServer.permitAll) Scenario.taggedRepos
     = (Ok tt, Scenario.taggedRepos,
        [LogDebug ("Processing artifact: 'A' for ref: refs/tags/v1 new commit: "
                   +:+ Scenario.commit2);
         CallUpdateRefs [createRequest Scenario.tag Scenario.artifactA2]
           "repoA";
         CallGetRefs "repoA";
         LogWarning ("Ref exists, but on different commit. New commit: "
                     +:+ Scenario.commit2 +:+ " Old Commit: "
                     +:+ Scenario.commit1);
         LogError "If you need to change permissions see: _admin/_versioncontrol?_a=security&repositoryId=repoA";
         SetResult TaskFailed
           ("Unable to create ref: refs/tags/v1 UpdateStatus: 2 RepositoryId: repoA Commit: "
            +:+ Scenario.commit2)]).
Proof.
  split; [vm_compute; reflexivity |].
  split; vm_compute; reflexivity.
Qed.

(** C3, amended: when the target ref exists on another commit than
    the artifact's, the create attempt is refused and the repositories
    stay as they are; the reconciler logs the divergence warning and,
    the divergence check having answered false, goes on to classify
    and fail: it logs the permission error of the status, if any, and
    the permissions pointer, and marks the task failed. *)
Theorem divergence_warns_then_fails (policy : GitServer.Policy)
  (refName : string) (showStatus : GitRefUpdateStatus -> string)
  (artifact : IArtifactData) (σ : GitServer.State) (refs : list GitRef)
  (existing : GitRef) :
  σ !! art_repositoryId artifact = Some refs ->
  List.find (GitServer.named refName) refs = Some existing ->
  strictEq (Str (ref_objectId existing)) (art_commit artifact) = false ->
  exists r,
    GitServer.applyUpdate policy (art_repositoryId artifact) refs
      (createRequest refName artifact) = (refs, r)
    /\ res_success r = false
    /\ processArtifact refName showStatus artifact (GitServer.api policy) σ
       = (Ok tt, σ,
          [processingLine refName artifact;
           CallUpdateRefs [createRequest refName artifact]
             (art_repositoryId artifact);
           CallGetRefs (art_repositoryId artifact);
           LogWarning ("Ref exists, but on different commit. New commit: "
                       +:+ toStr (art_commit artifact) +:+ " Old Commit: "
                       +:+ ref_objectId existing)]
            ++ permissionEvents (res_updateStatus r)
            ++ [permissionsPointer artifact;
                unableToCreate refName showStatus r]).
Proof.
  intros Hrepo Hfind Hneq.
  destruct (updateRefs_existing policy σ refName artifact refs existing
              Hrepo Hfind) as (r & Hupd & Hfail & Happly).
  exists r. split; [exact Happly |]. split; [exact Hfail |].
  rewrite (processArtifact_failed_create refName showStatus artifact
             (GitServer.api policy) σ r [] σ false σ
             [CallGetRefs (art_repositoryId artifact);
              LogWarning ("Ref exists, but on different commit. New commit: "
                          +:+ toStr (art_commit artifact) +:+ " Old Commit: "
                          +:+ ref_objectId existing)] Hupd Hfail).
  - reflexivity.
  - rewrite (doesRefExist_found policy σ refName artifact refs existing
               Hrepo Hfind), Hneq.
    reflexivity.
Qed.

Lemma divergence_warns_then_fails_witness :
  exists r,
    GitServer.applyUpdate GitServer.permitAll "repoA"
      [mkGitRef Scenario.tag Scenario.commit1]
      (createRequest Scenario.tag Scenario.artifactA2)
    = ([mkGitRef Scenario.tag Scenario.commit1], r)
    /\ res_success r = false
    /\ processArtifact Scenario.tag Scenario.showStatus Scenario.artifactA2
         (GitServer.api GitServer.permitAll) Scenario.taggedRepos
       = (Ok tt, Scenario.taggedRepos,
          [processingLine Scenario.tag Scenario.artifactA2;
           CallUpdateRefs [createRequest Scenario.tag Scenario.artifactA2]
             "repoA";
           CallGetRefs "repoA";
           LogWarning ("Ref exists, but on different commit. New commit: "
                       +:+ Scenario.commit2 +:+ " Old Commit: "
                       +:+ Scenario.commit1)]
            ++ permissionEvents (res_updateStatus r)
            ++ [permissionsPointer Scenario.artifactA2;
                unableToCreate Scenario.tag Scenario.showStatus r]).
Proof.
  apply (divergence_warns_then_fails GitServer.permitAll Scenario.tag
           Scenario.showStatus Scenario.artifactA2 Scenario.taggedRepos
           [mkGitRef Scenario.tag Scenario.commit1]
           (mkGitRef Scenario.tag Scenario.commit1));
    reflexivity.
Defined.

(** ** What a run submits *)

Section Emits.
Context {W : Type}.
Variable P : Event -> Prop.

Lemma emits_ret {A} (a : A) : emits P (ret (W := W) a).
Proof. intros w. constructor. Qed.

Lemma emits_throw {A} (e : Exn) : emits P (throw (W := W) (A := A) e).
Proof. intros w. constructor. Qed.

Lemma emits_emit (ev : Event) : P ev -> emits P (emit (W := W) ev).
Proof. intros H w. cbn. auto. Qed.

Lemma emits_call {A} (ev : Event) (f : W -> Res A * W) :
  P ev -> emits P (call ev f).
Proof. intros H w. unfold call. destruct (f w). cbn. auto. Qed.

Lemma emits_bind {A B} (m : M W A) (k : A -> M W B) :
  emits P m -> (forall a, emits P (k a)) -> emits P (bind m k).
Proof.
  intros Hm Hk w. unfold bind. specialize (Hm w).
  destruct (m w) as [[[a|e] w1] t1]; cbn in *; [| exact Hm].
  specialize (Hk a w1). destruct (k a w1) as [[r w2] t2]; cbn in *.
  apply Forall_app; auto.
Qed.

Lemma emits_tryCatch {A} (m : M W A) (handler : Exn -> M W A) :
  emits P m -> (forall e, emits P (handler e)) -> emits P (tryCatch m handler).
Proof.
  intros Hm Hh w. unfold tryCatch. specialize (Hm w).
  destruct (m w) as [[[a|e] w1] t1]; cbn in *; [exact Hm |].
  specialize (Hh e w1). destruct (handler e w1) as [[r w2] t2]; cbn in *.
  apply Forall_app; auto.
Qed.

Lemma emits_forEach {A} (xs : list A) (body : A -> M W unit) :
  (forall x, emits P (body x)) -> emits P (forEach xs body).
Proof.
  intros Hb. induction xs as [|x xs IH]; cbn.
  - apply emits_ret.
  - apply emits_bind; auto.
Qed.

End Emits.

Create HintDb emits.
#[local] Hint Resolve emits_ret emits_throw emits_emit emits_call
  emits_bind emits_tryCatch emits_forEach : emits.
#[local] Hint Extern 1 (createOnly _) => exact I : emits.

Section RunEmits.
Context {W : Type}.
Variable host : Host W.
Variable refName : string.
Variable showStatus : GitRefUpdateStatus -> string.

Lemma getRepositoryId_createOnly bldapi name :
  emits createOnly (getRepositoryId host bldapi name).
Proof.
  unfold getRepositoryId, getRepositoryIdFromBuildNumber.
  destruct (negb _ && negb _); [auto with emits |].
  destruct (strictNull _ || eqStr _ _); [auto with emits |].
  apply emits_bind; [auto with emits |].
  intros [b|]; [| auto with emits].
  destruct (build_repository b); auto with emits.
Qed.

Lemma scanVariables_createOnly bldapi regexp variables :
  forall lastIndex artifactNames,
    emits createOnly
      (scanVariables host bldapi regexp variables lastIndex artifactNames).
Proof.
  induction variables as [|v rest IH]; intros lastIndex artifactNames; cbn.
  - auto with emits.
  - destruct (JsRegExp.exec regexp lastIndex (vi_name v)) as [[m|] li].
    + destruct (negb _ && negb _); [auto with emits |].
      apply emits_bind; [auto with emits |]. intros _.
      apply emits_bind; [apply getRepositoryId_createOnly |].
      intros [| | id]; apply IH.
    + auto with emits.
Qed.

Lemma getAllGitArtifacts_createOnly bldapi :
  emits createOnly (getAllGitArtifacts host bldapi).
Proof.
  unfold getAllGitArtifacts.
  destruct (JsRegExp.RegExp_new _ _);
    [apply scanVariables_createOnly | auto with emits].
Qed.

Lemma processArtifact_createOnly artifact (gitapi : IGitApi W) :
  emits createOnly (processArtifact refName showStatus artifact gitapi).
Proof.
  unfold processArtifact, updateRef, doesRefExist, permissionError.
  apply emits_bind; [auto with emits |]. intros _.
  apply emits_bind.
  - apply emits_bind.
    + apply emits_call. cbn. repeat constructor.
    + intros [[|r rs]|]; auto with emits.
  - intros [r|]; [| auto with emits].
    destruct (res_success r); [auto with emits |].
    apply emits_bind.
    + apply emits_bind; [auto with emits |].
      intros [refs|]; [| auto with emits].
      destruct (List.find _ refs) as [found|]; [| auto with emits].
      destruct (strictEq _ _); auto with emits.
    + intros [|]; [auto with emits |].
      destruct (res_updateStatus r); auto 6 with emits.
Qed.

Lemma run_createOnly : emits createOnly (run host refName showStatus).
Proof.
  unfold run. apply emits_tryCatch; [| auto with emits].
  apply emits_bind.
  - destruct (getEndpointUrl host); auto with emits.
  - intros url.
    destruct (WebApi host url _) as [[gitapi bldapi]|e]; [| auto with emits].
    apply emits_bind; [apply getAllGitArtifacts_createOnly |].
    intros artifactData. apply emits_bind.
    + destruct (Nat.eqb _ _); auto with emits.
    + intros _. apply emits_forEach. intros artifact.
      apply processArtifact_createOnly.
Qed.

End RunEmits.

Section CreatePreserves.
Import GitServer.
Variable policy : Policy.

Lemma find_app_found {A} (f : A -> bool) (l l' : list A) (x : A) :
  List.find f l = Some x -> List.find f (l ++ l') = Some x.
Proof.
  induction l as [|y l IH]; cbn; [discriminate |].
  destruct (f y); auto.
Qed.

Lemma applyUpdate_create_preserves repositoryId refs u refs' r name existing :
  upd_oldObjectId u = zeroObjectId ->
  applyUpdate policy repositoryId refs u = (refs', r) ->
  List.find (named name) refs = Some existing ->
  List.find (named name) refs' = Some existing.
Proof.
  intros Hzero Happly Hfind. unfold applyUpdate in Happly.
  rewrite Hzero, String.eqb_refl in Happly.
  destruct (policy repositoryId u); [congruence |].
  destruct (upd_newObjectId u); try congruence.
  destruct (List.find (named (upd_name u)) refs); [congruence |].
  injection Happly as <- _. apply find_app_found, Hfind.
Qed.

Lemma applyUpdates_create_preserves repositoryId us :
  Forall (fun u => upd_oldObjectId u = zeroObjectId) us ->
  forall refs refs' rs name existing,
    applyUpdates policy repositoryId refs us = (refs', rs) ->
    List.find (named name) refs = Some existing ->
    List.find (named name) refs' = Some existing.
Proof.
  induction 1 as [|u us Hu _ IH]; intros refs refs' rs name existing; cbn.
  - congruence.
  - destruct (applyUpdate policy repositoryId refs u) as [refs1 r] eqn:E1.
    destruct (applyUpdates policy repositoryId refs1 us) as [refs2 rs2] eqn:E2.
    intros [= <- _] Hfind.
    eapply IH; [exact E2 |].
    eapply applyUpdate_create_preserves; eauto.
Qed.

(** Requests that expect the ref not to exist leave every existing
    ref of every repository on its commit. *)
Lemma updateRefs_create_preserves us repositoryId (σ σ' : State) rs :
  Forall (fun u => upd_oldObjectId u = zeroObjectId) us ->
  updateRefs (api policy) us repositoryId σ = (Ok (Some rs), σ') ->
  forall repo refs name existing,
    σ !! repo = Some refs ->
    List.find (named name) refs = Some existing ->
    exists refs',
      σ' !! repo = Some refs'
      /\ List.find (named name) refs' = Some existing.
Proof.
  intros Hzero Hupd repo refs name existing Hrepo Hfind. cbn in Hupd.
  destruct (σ !! repositoryId) as [refs0|] eqn:E0; [| discriminate].
  destruct (applyUpdates policy repositoryId refs0 us) as [refs1 rs1] eqn:E1.
  injection Hupd as _ <-.
  destruct (decide (repositoryId = repo)) as [-> | Hne].
  - exists refs1. split; [apply lookup_insert_eq |].
    rewrite Hrepo in E0. injection E0 as <-.
    eapply applyUpdates_create_preserves; eauto.
  - exists refs. split; [| exact Hfind].
    rewrite lookup_insert_ne by exact Hne. exact Hrepo.
Qed.

End CreatePreserves.

(** C2: in every run, from every world and for every host, each
    request handed to [updateRefs] has the expected prior commit id
    [zeroObjectId], which is forty zeros; and requests of that kind
    only create: against the service, they leave every existing ref of
    every repository on the commit it had. *)
Theorem only_creates_refs :
  (forall W (host : Host W) refName showStatus,
      emits createOnly (run host refName showStatus))
  /\ list_ascii_of_string zeroObjectId = repeat "0"%char 40
  /\ (forall policy us repositoryId (σ σ' : GitServer.State) rs,
         createOnly (CallUpdateRefs us repositoryId) ->
         updateRefs (GitServer.api policy) us repositoryId σ
         = (Ok (Some rs), σ') ->
         forall repo refs name existing,
           σ !! repo = Some refs ->
           List.find (GitServer.named name) refs = Some existing ->
           exists refs',
             σ' !! repo = Some refs'
             /\ List.find (GitServer.named name) refs' = Some existing).
Proof.
  split; [| split].
  - intros W host refName showStatus. apply run_createOnly.
  - reflexivity.
  - intros policy us repositoryId σ σ' rs Hzero Hupd.
    eapply updateRefs_create_preserves; eauto.
Qed.

Lemma only_creates_refs_witness :
  exists refs',
    snd (updateRefs (GitServer.api GitServer.permitAll)
           [createRequest Scenario.tag Scenario.artifactA2] "repoA"
           Scenario.taggedRepos) !! "repoA" = Some refs'
    /\ List.find (GitServer.named Scenario.tag) refs'
       = Some (mkGitRef Scenario.tag Scenario.commit1).
Proof.
  refine (proj2 (proj2 only_creates_refs) GitServer.permitAll
            [createRequest Scenario.tag Scenario.artifactA2] "repoA"
            Scenario.taggedRepos _ _ _ _
            "repoA" [mkGitRef Scenario.tag Scenario.commit1] Scenario.tag
            (mkGitRef Scenario.tag Scenario.commit1) _ _).
  - repeat constructor.
  - vm_compute. reflexivity.
  - vm_compute. reflexivity.
  - vm_compute. reflexivity.
Defined.

(** ** The matcher *)

Section Matcher.
Import JsRegExp.
Variable ic : bool.

Lemma matchItems_one it p' c s :
  single it ->
  matchItems ic (it :: p') (c :: s)
  = if accepts ic (icls it) c then matchItems ic p' s else None.
Proof.
  intros [Hq Hc]. destruct it as [k q cap]. cbn in Hq, Hc. subst q cap.
  cbn. destruct (accepts ic k c); [| reflexivity].
  destruct s as [|c' s']; cbn; destruct (matchItems ic p' _) as [[caps r]|];
    reflexivity.
Qed.

Lemma matchItems_one_nil it p' :
  single it -> matchItems ic (it :: p') [] = None.
Proof.
  intros [Hq Hc]. destruct it as [k q cap]. cbn in Hq. subst q. reflexivity.
Qed.

Lemma matchItems_singles its p' cs rest :
  Forall single its ->
  Forall2 (fun it c => accepts ic (icls it) c = true) its cs ->
  matchItems ic (its ++ p') (cs ++ rest) = matchItems ic p' rest.
Proof.
  intros Hs Hacc. induction Hacc as [|it c its cs Hc Hacc IH].
  - reflexivity.
  - inversion Hs as [|? ? Hit Hits]; subst.
    cbn [app]. rewrite matchItems_one by exact Hit. rewrite Hc. auto.
Qed.

Lemma matchItems_singles_short its :
  Forall single its ->
  forall s, length s < length its -> matchItems ic its s = None.
Proof.
  induction 1 as [|it its Hit Hits IH]; intros s Hlen; cbn in Hlen; [lia |].
  destruct s as [|c s].
  - apply matchItems_one_nil, Hit.
  - rewrite matchItems_one by exact Hit.
    destruct (accepts ic (icls it) c); [| reflexivity].
    apply IH. cbn in Hlen. lia.
Qed.

(** A match at the first position tried ends the search. *)
Lemma search_here p s idx caps rest :
  matchItems ic p s = Some (caps, rest) ->
  search ic p s idx
  = Some (mkMatch idx (idx + (length s - length rest)) caps).
Proof. intros H. destruct s; cbn [search]; rewrite H; reflexivity. Qed.

Section Star.
Context {R : Type}.
Variable it : Item.
Variable continue : list ascii -> list ascii -> option R.
Hypothesis Hstar : iquant it = QStar.

(** Nothing matches after any number of characters taken: the star fails. *)
Lemma repeatItem_star_fails ys :
  forall taken n,
    (forall ys1 ys2, ys = ys1 ++ ys2 -> continue (rev ys1 ++ taken) ys2 = None) ->
    repeatItem ic it continue ys taken n = None.
Proof.
  induction ys as [|y ys IH]; intros taken n Hfail; cbn [repeatItem];
    rewrite Hstar; cbn [minCount Nat.leb].
  - apply (Hfail [] []). reflexivity.
  - rewrite IH.
    + destruct (_ && _); apply (Hfail [] (y :: ys)); reflexivity.
    + intros ys1 ys2 ->.
      specialize (Hfail (y :: ys1) ys2 eq_refl). cbn in Hfail.
      rewrite <- app_assoc in Hfail. exact Hfail.
Qed.

Lemma repeatItem_star_takes xs :
  forall ys taken n r,
    Forall (fun c => accepts ic (icls it) c = true) xs ->
    continue (rev xs ++ taken) ys = Some r ->
    (forall ys1 ys2, ys = ys1 ++ ys2 -> ys1 <> [] ->
       continue (rev ys1 ++ rev xs ++ taken) ys2 = None) ->
    repeatItem ic it continue (xs ++ ys) taken n = Some r.
Proof.
  induction xs as [|x xs IH]; intros ys taken n r Hacc Hok Hfail.
  - cbn [app rev] in *. destruct ys as [|y ys]; cbn [repeatItem];
      rewrite Hstar; cbn [minCount Nat.leb]; [exact Hok |].
    rewrite repeatItem_star_fails.
    + destruct (_ && _); exact Hok.
    + intros ys1 ys2 ->.
      specialize (Hfail (y :: ys1) ys2 eq_refl). cbn in Hfail.
      rewrite <- app_assoc in Hfail. apply Hfail. discriminate.
  - inversion Hacc as [|? ? Hx Hxs]; subst.
    cbn [app repeatItem]. rewrite Hstar. cbn [belowMax maxCount andb].
    rewrite Hx. rewrite (IH ys (x :: taken) (S n) r); auto.
    + cbn [rev] in Hok. rewrite <- app_assoc in Hok. exact Hok.
    + intros ys1 ys2 Hy Hne. specialize (Hfail ys1 ys2 Hy Hne).
      cbn [rev] in Hfail. rewrite <- app_assoc in Hfail. exact Hfail.
Qed.

End Star.
End Matcher.

(** ** The pattern of discovery *)

Lemma list_ascii_of_string_app (a b : string) :
  list_ascii_of_string (a +:+ b)
  = list_ascii_of_string a ++ list_ascii_of_string b.
Proof.
  induction a as [|c a IH]; [reflexivity |].
  change (String c a +:+ b) with (String c (a +:+ b)).
  cbn [list_ascii_of_string app]. rewrite IH. reflexivity.
Qed.

Lemma length_list_ascii_of_string (a : string) :
  length (list_ascii_of_string a) = String.length a.
Proof. induction a as [|c a IH]; cbn; [| rewrite IH]; reflexivity. Qed.

(** The pattern, item by item: the text before the group, the group
    and the text after it; every dot is the wildcard. *)
Lemma artifactRegExp_items :
  JsRegExp.items artifactRegExp
  = map plainItem (list_ascii_of_string "RELEASE.ARTIFACTS.")
      ++ JsRegExp.mkItem JsRegExp.CDot JsRegExp.QStar true
      :: map plainItem (list_ascii_of_string ".REPOSITORY.PROVIDER").
Proof. reflexivity. Qed.

Lemma plainItems_single (text : list ascii) :
  Forall single (map plainItem text).
Proof. induction text; constructor; [split; reflexivity | assumption]. Qed.

Lemma canonical_dot (c : ascii) :
  JsRegExp.canonicalize c = "."%char -> JsRegExp.isLineTerminator c = false.
Proof.
  destruct c as [[] [] [] [] [] [] [] []]; intros H;
    solve [reflexivity | vm_compute in H; discriminate].
Qed.

Lemma plainItem_accepts (c c' : ascii) :
  JsRegExp.canonicalize c' = JsRegExp.canonicalize c ->
  JsRegExp.accepts true (JsRegExp.icls (plainItem c)) c' = true.
Proof.
  intros H. unfold plainItem. cbn [JsRegExp.icls].
  destruct (Ascii.eqb c ".") eqn:E; cbn [JsRegExp.accepts].
  - apply Ascii.eqb_eq in E. subst c.
    rewrite canonical_dot; [reflexivity | exact H].
  - rewrite H. apply Ascii.eqb_refl.
Qed.

Lemma plainItems_accept (text : list ascii) :
  forall cs,
    map JsRegExp.canonicalize cs = map JsRegExp.canonicalize text ->
    Forall2 (fun it c => JsRegExp.accepts true (JsRegExp.icls it) c = true)
      (map plainItem text) cs.
Proof.
  induction text as [|c text IH]; intros [|c' cs] H; cbn in H;
    try discriminate; [constructor |].
  injection H as Hc Hcs. cbn [map]. constructor.
  - apply plainItem_accepts, Hc.
  - apply IH, Hcs.
Qed.

(** On a provider key of an artifact, spelled with the dots and in
    any letter case, the search from index 0 matches the whole key,
    captures the artifact name and leaves [lastIndex] at the end. *)
Lemma exec_provider_key (pre name suf : string) :
  sameLetters pre "RELEASE.ARTIFACTS." ->
  sameLetters suf ".REPOSITORY.PROVIDER" ->
  noLineTerminator name ->
  JsRegExp.exec artifactRegExp 0 (pre +:+ name +:+ suf)
  = (Some (JsRegExp.mkMatch 0 (String.length (pre +:+ name +:+ suf))
             [list_ascii_of_string name]),
     String.length (pre +:+ name +:+ suf)).
Proof.
  intros Hpre Hsuf Hname. unfold sameLetters in Hpre, Hsuf.
  assert (Hmatch :
    JsRegExp.matchItems true (JsRegExp.items artifactRegExp)
      (list_ascii_of_string (pre +:+ name +:+ suf))
    = Some ([list_ascii_of_string name], [])).
  { rewrite artifactRegExp_items, !list_ascii_of_string_app.
    rewrite matchItems_singles;
      [| apply plainItems_single | apply plainItems_accept, Hpre].
    cbn [JsRegExp.matchItems].
    apply repeatItem_star_takes.
    - reflexivity.
    - eapply Forall_impl; [exact Hname |].
      cbn. intros c ->. reflexivity.
    - rewrite <- (app_nil_r (list_ascii_of_string suf)).
      rewrite <- (app_nil_r (map plainItem _)).
      rewrite matchItems_singles;
        [| apply plainItems_single | apply plainItems_accept, Hsuf].
      cbn. rewrite app_nil_r, rev_involutive. reflexivity.
    - intros ys1 ys2 Hsplit Hne.
      rewrite matchItems_singles_short; [reflexivity | apply plainItems_single |].
      apply (f_equal (@length ascii)) in Hsuf, Hsplit.
      rewrite !length_map in Hsuf. rewrite length_map, <- Hsuf, Hsplit.
      rewrite length_app. destruct ys1; [contradiction | cbn; lia]. }
  unfold JsRegExp.exec.
  change (JsRegExp.global artifactRegExp) with true.
  change (JsRegExp.ignoreCase artifactRegExp) with true.
  cbn [Nat.ltb Nat.leb]. rewrite drop_0.
  rewrite (search_here true _ _ 0 _ _ Hmatch).
  cbn [JsRegExp.endIndex length Nat.add]. rewrite Nat.sub_0_r.
  rewrite length_list_ascii_of_string. reflexivity.
Qed.

(** After a variable on which the pattern did not match, the search
    starts at index 0 again. *)
Lemma lastIndexAfter_no_match (regexp : JsRegExp.RegExp)
  (before : list VariableInfo) (last : VariableInfo) (lastIndex : nat) :
  fst (JsRegExp.exec regexp (lastIndexAfter regexp before lastIndex)
         (vi_name last)) = None ->
  lastIndexAfter regexp (before ++ [last]) lastIndex = 0.
Proof.
  revert lastIndex. induction before as [|v before IH]; intros lastIndex;
    cbn [app lastIndexAfter]; [| apply IH].
  unfold JsRegExp.exec.
  destruct (Nat.ltb _ _); [reflexivity |].
  destruct (JsRegExp.search _ _ _ _); [discriminate | reflexivity].
Qed.

(** ** Discovery *)

Section MonadInversion.
Context {W : Type}.

Lemma bind_ok_inv {A B} (m : M W A) (k : A -> M W B) w b w2 t :
  bind m k w = (Ok b, w2, t) ->
  exists a w1 t1 t2,
    m w = (Ok a, w1, t1) /\ k a w1 = (Ok b, w2, t2) /\ t = t1 ++ t2.
Proof.
  unfold bind. destruct (m w) as [[[a|e] w1] t1]; [| discriminate].
  destruct (k a w1) as [[r w3] t2] eqn:Ek. intros [= -> -> <-].
  exists a, w1, t1, t2. auto.
Qed.

Lemma bind_assoc {A B C} (m : M W A) (f : A -> M W B) (g : B -> M W C) w :
  bind (bind m f) g w = bind m (fun a => bind (f a) g) w.
Proof.
  unfold bind. destruct (m w) as [[[a|e] w1] t1]; [| reflexivity].
  destruct (f a w1) as [[[b|e] w2] t2]; [| reflexivity].
  destruct (g b w2) as [[r w3] t3]. rewrite app_assoc. reflexivity.
Qed.

Lemma bind_ext {A B} (m : M W A) (k k' : A -> M W B) w :
  (forall a w1, k a w1 = k' a w1) -> bind m k w = bind m k' w.
Proof.
  intros H. unfold bind. destruct (m w) as [[[a|e] w1] t1]; [| reflexivity].
  rewrite H. reflexivity.
Qed.

End MonadInversion.

Section Discovery.
Context {W : Type}.
Variable host : Host W.
Variable bldapi : IBuildApi W.
Variable regexp : JsRegExp.RegExp.

(** The scan of a list in two parts. *)
Lemma scanVariables_app pre post :
  forall lastIndex artifactNames w,
    scanVariables host bldapi regexp (pre ++ post) lastIndex artifactNames w
    = bind (scanVariables host bldapi regexp pre lastIndex artifactNames)
        (fun found =>
           scanVariables host bldapi regexp post
             (lastIndexAfter regexp pre lastIndex) found) w.
Proof.
  induction pre as [|v pre IH]; intros lastIndex artifactNames w.
  - cbn [app scanVariables lastIndexAfter]. rewrite run_ret_bind. reflexivity.
  - cbn [app scanVariables lastIndexAfter].
    destruct (JsRegExp.exec regexp lastIndex (vi_name v)) as [[m|] li];
      cbn [snd].
    + destruct (negb _ && negb _).
      * rewrite bind_assoc. apply bind_ext. intros; apply IH.
      * rewrite bind_assoc. apply bind_ext. intros _ w1.
        rewrite bind_assoc. apply bind_ext. intros [| | id] w2; apply IH.
    + rewrite bind_assoc. apply bind_ext. intros; apply IH.
Qed.

(** The scan only ever adds to the artifacts found so far. *)
Lemma scanVariables_extends variables :
  forall lastIndex artifactNames w arts w' t,
    scanVariables host bldapi regexp variables lastIndex artifactNames w
    = (Ok arts, w', t) ->
    exists more, arts = artifactNames ++ more.
Proof.
  induction variables as [|v rest IH];
    intros lastIndex artifactNames w arts w' t; cbn [scanVariables].
  - intros [= <- _ _]. exists []. rewrite app_nil_r. reflexivity.
  - destruct (JsRegExp.exec regexp lastIndex (vi_name v)) as [[m|] li].
    + destruct (negb _ && negb _).
      * intros H. apply bind_ok_inv in H as (_ & w1 & _ & t2 & _ & H & _).
        eapply IH, H.
      * intros H. apply bind_ok_inv in H as (_ & w1 & _ & t2 & _ & H & _).
        apply bind_ok_inv in H as (rid & w2 & _ & t3 & _ & H & _).
        destruct rid as [| | id]; try (eapply IH, H).
        apply IH in H as [more ->]. rewrite <- app_assoc. eauto.
    + intros H. apply bind_ok_inv in H as (_ & w1 & _ & t2 & _ & H & _).
      eapply IH, H.
Qed.

(** One iteration on a key that matches, with an accepted provider
    and a repository id: the descriptor is appended, whatever the
    commit variable holds. *)
Lemma scanVariables_emits v rest lastIndex artifactNames w m lastIndex'
  id w1 t1 :
  JsRegExp.exec regexp lastIndex (vi_name v) = (Some m, lastIndex') ->
  gitProvider (vi_value v) = true ->
  getRepositoryId host bldapi (JsRegExp.group m 1) w = (Ok (Str id), w1, t1) ->
  scanVariables host bldapi regexp (v :: rest) lastIndex artifactNames w
  = match
      scanVariables host bldapi regexp rest lastIndex'
        (artifactNames
           ++ [{| art_name := JsRegExp.group m 1;
                  art_commit :=
                    getVariable host
                      ("RELEASE.ARTIFACTS." +:+ JsRegExp.group m 1
                       +:+ ".SOURCEVERSION");
                  art_repositoryId := id |}]) w1
    with
    | (r, w2, t2) =>
        (r, w2,
         LogDebug ("Getting repository id for artifact: "
                   +:+ JsRegExp.group m 1) :: t1 ++ t2)
    end.
Proof.
  intros Hexec Hprov Hid. cbn [scanVariables]. rewrite Hexec.
  unfold gitProvider in Hprov.
  destruct (eqStr (vi_value v) "TfsGit"), (eqStr (vi_value v) "Git");
    try discriminate; cbn [negb andb];
    rewrite run_emit_bind; unfold bind; rewrite Hid;
    destruct (scanVariables _ _ _ rest _ _ w1) as [[r w2] t2]; reflexivity.
Qed.

End Discovery.

(** The pattern of the source is in the fragment. *)
Lemma artifactRegExp_new :
  JsRegExp.RegExp_new artifactPattern "gi" = Some artifactRegExp.
Proof. vm_compute. reflexivity. Qed.

Lemma getAllGitArtifacts_scan {W} (host : Host W) (bldapi : IBuildApi W) :
  getAllGitArtifacts host bldapi
  = scanVariables host bldapi artifactRegExp (getVariables host) 0 [].
Proof. unfold getAllGitArtifacts. rewrite artifactRegExp_new. reflexivity. Qed.

(** The descriptor of a matching key with an accepted provider and a
    repository id that resolves is among those returned. *)
Lemma discovery_emits {W} (host : Host W) (bldapi : IBuildApi W)
  (pre post : list VariableInfo) (v : VariableInfo)
  (m : JsRegExp.MatchResult) (lastIndex' : nat) (id : string) (w w' : W)
  (arts : list IArtifactData) (t : list Event) :
  getVariables host = pre ++ v :: post ->
  JsRegExp.exec artifactRegExp (lastIndexAfter artifactRegExp pre 0)
    (vi_name v) = (Some m, lastIndex') ->
  gitProvider (vi_value v) = true ->
  (forall w0, exists w1 t1,
      getRepositoryId host bldapi (JsRegExp.group m 1) w0
      = (Ok (Str id), w1, t1)) ->
  getAllGitArtifacts host bldapi w = (Ok arts, w', t) ->
  In {| art_name := JsRegExp.group m 1;
        art_commit :=
          getVariable host
            ("RELEASE.ARTIFACTS." +:+ JsRegExp.group m 1 +:+ ".SOURCEVERSION");
        art_repositoryId := id |} arts.
Proof.
  intros Hvars Hexec Hprov Hid Hrun.
  rewrite getAllGitArtifacts_scan, Hvars in Hrun.
  rewrite scanVariables_app in Hrun.
  apply bind_ok_inv in Hrun as (found & w1 & t1 & t2 & _ & Hrun & _).
  destruct (Hid w1) as (w2 & t3 & Hid1).
  rewrite (scanVariables_emits host bldapi artifactRegExp v post _ found w1 m
             lastIndex' id w2 t3 Hexec Hprov Hid1) in Hrun.
  destruct (scanVariables _ _ _ post _ _ w2) as [[r w3] t4] eqn:Hpost.
  injection Hrun as -> _ _.
  apply scanVariables_extends in Hpost as [more ->].
  apply in_or_app. left. apply in_or_app. right. left. reflexivity.
Qed.

(** What holds of C6: the provider key of an artifact, spelled with
    the dots and in any letter case, with an accepted provider value
    and a repository id that resolves, yields the descriptor of that
    artifact whenever the search in the key starts at index 0 (the key
    is the first variable, or the pattern did not match on the
    variable before it) and discovery returns. *)
Lemma discovery_of_provider_key {W} (host : Host W) (bldapi : IBuildApi W)
  (before after : list VariableInfo) (v : VariableInfo)
  (pre name suf id : string) (w w' : W) (arts : list IArtifactData)
  (t : list Event) :
  getVariables host = before ++ v :: after ->
  lastIndexAfter artifactRegExp before 0 = 0 ->
  vi_name v = pre +:+ name +:+ suf ->
  sameLetters pre "RELEASE.ARTIFACTS." ->
  sameLetters suf ".REPOSITORY.PROVIDER" ->
  noLineTerminator name ->
  gitProvider (vi_value v) = true ->
  (forall w0, exists w1 t1,
      getRepositoryId host bldapi name w0 = (Ok (Str id), w1, t1)) ->
  getAllGitArtifacts host bldapi w = (Ok arts, w', t) ->
  In {| art_name := name;
        art_commit :=
          getVariable host ("RELEASE.ARTIFACTS." +:+ name +:+ ".SOURCEVERSION");
        art_repositoryId := id |} arts.
Proof.
  intros Hvars Hzero Hkey Hpre Hsuf Hname Hprov Hid Hrun.
  pose proof (exec_provider_key pre name suf Hpre Hsuf Hname) as Hexec.
  rewrite <- Hkey, <- Hzero in Hexec.
  pose proof (discovery_emits host bldapi before after v _ _ id w w' arts t
                Hvars Hexec Hprov) as Hemit.
  cbn [JsRegExp.group JsRegExp.captures nth] in Hemit.
  rewrite string_of_list_ascii_of_string in Hemit.
  apply Hemit; assumption.
Qed.


(** ** Where the code departs from the specification *)

(** No result from [updateRefs] for one artifact ends the loop over
    the artifacts: those after it are not processed. *)
Lemma no_result_aborts_loop {W} (refName : string)
  (showStatus : GitRefUpdateStatus -> string) (artifact : IArtifactData)
  (rest : list IArtifactData) (gitapi : IGitApi W) (w w1 : W)
  (res : option (list GitRefUpdateResult)) :
  updateRefs gitapi [createRequest refName artifact]
    (art_repositoryId artifact) w = (Ok res, w1) ->
  res = None \/ res = Some [] ->
  forEach (artifact :: rest)
    (fun a => processArtifact refName showStatus a gitapi) w
  = (Throw (cannotRead "success" Null), w1,
     [processingLine refName artifact;
      CallUpdateRefs [createRequest refName artifact]
        (art_repositoryId artifact);
      LogWarning "No update result returned from updateRefs"]).
Proof.
  intros Hupd Hres. cbn [forEach].
  apply run_bind_throw.
  eapply processArtifact_no_result; eauto.
Qed.

(** C4, at the failing input: a release with the artifacts A and B,
    where [updateRefs] returns an empty result for A's repository and
    would create the ref in B's.  The run logs the warning for A, then
    reads [success] of [null]; the exception leaves the loop, the task
    is marked failed with the exception's message, and B is never
    processed: no request is made for it and its repository gets no
    ref. *)
Theorem no_update_result_aborts_run :
  run (Scenario.releaseHost Scenario.twoArtifacts
         (Scenario.silentFor "repoA" (GitServer.api GitServer.permitAll))
         Scenario.noBuilds)
    Scenario.tag Scenario.showStatus Scenario.emptyRepos
  = (Ok tt, Scenario.emptyRepos,
     [LogDebug "Getting repository id for artifact: A";
      LogDebug "No match for variable: RELEASE.ARTIFACTS.A.REPOSITORY_ID";
      LogDebug "No match for variable: RELEASE.ARTIFACTS.A.SOURCEVERSION";
      LogDebug "Getting repository id for artifact: B";
      LogDebug "No match for variable: RELEASE.ARTIFACTS.B.REPOSITORY_ID";
      LogDebug "No match for variable: RELEASE.ARTIFACTS.B.SOURCEVERSION";
      processingLine Scenario.tag Scenario.artifactA;
      CallUpdateRefs [createRequest Scenario.tag Scenario.artifactA] "repoA";
      LogWarning "No update result returned from updateRefs";
      SetResult TaskFailed "Cannot read property 'success' of null"]).
Proof. vm_compute. reflexivity. Qed.

Section BuildIdFallback.
Context {W : Type}.
Variable host : Host W.
Variable bldapi : IBuildApi W.
Variable name : string.

Let buildidVariable := "RELEASE.ARTIFACTS." +:+ name +:+ ".BUILDID".

(** A build id that is [null] or empty: the task is marked failed and
    the lookup answers [null], without a call to the build client. *)
Lemma build_id_null_or_empty (w : W) :
  getVariable host buildidVariable = Null
  \/ getVariable host buildidVariable = Str "" ->
  getRepositoryIdFromBuildNumber host bldapi name w
  = (Ok Null, w,
     [SetResult TaskFailed
        ("Unable to get build id from variable: " +:+ buildidVariable)]).
Proof.
  intros H. unfold getRepositoryIdFromBuildNumber. fold buildidVariable.
  destruct H as [-> | ->]; reflexivity.
Qed.

(** A build id that is [undefined] passes the guard: the build client
    is asked for build NaN and the task is not marked failed here. *)
Lemma build_id_undefined (w : W) :
  getVariable host buildidVariable = Undefined ->
  getRepositoryIdFromBuildNumber host bldapi name w
  = bind (call (CallGetBuild NaN) (getBuild bldapi NaN))
      (fun build =>
         match build with
         | None => throw (cannotRead "repository" Null)
         | Some b =>
             match build_repository b with
             | None => throw (cannotRead "id" Undefined)
             | Some id =>
                 bind (emit (LogDebug ("Got repositoryid: " +:+ toStr id)))
                   (fun _ => ret id)
             end
         end) w.
Proof.
  intros H. unfold getRepositoryIdFromBuildNumber. fold buildidVariable.
  rewrite H. reflexivity.
Qed.

(** An artifact without a repository id whose build id is [null] or
    empty is dropped, the task is marked failed, and the scan goes on
    with the variables that follow. *)
Lemma unresolved_artifact_is_dropped (regexp : JsRegExp.RegExp)
  (v : VariableInfo) (rest : list VariableInfo) (lastIndex lastIndex' : nat)
  (artifactNames : list IArtifactData) (m : JsRegExp.MatchResult) (w : W) :
  name = JsRegExp.group m 1 ->
  JsRegExp.exec regexp lastIndex (vi_name v) = (Some m, lastIndex') ->
  gitProvider (vi_value v) = true ->
  looseNull (getVariable host
               ("RELEASE.ARTIFACTS." +:+ name +:+ ".REPOSITORY_ID")) = true
  \/ getVariable host ("RELEASE.ARTIFACTS." +:+ name +:+ ".REPOSITORY_ID")
     = Str "" ->
  getVariable host buildidVariable = Null
  \/ getVariable host buildidVariable = Str "" ->
  scanVariables host bldapi regexp (v :: rest) lastIndex artifactNames w
  = match scanVariables host bldapi regexp rest lastIndex' artifactNames w with
    | (r, w', t) =>
        (r, w',
         LogDebug ("Getting repository id for artifact: " +:+ name)
           :: SetResult TaskFailed
                ("Unable to get build id from variable: " +:+ buildidVariable)
           :: t)
    end.
Proof.
  intros Hname Hexec Hprov Hid Hbuild. cbn [scanVariables]. rewrite Hexec.
  unfold gitProvider in Hprov. rewrite <- Hname.
  assert (Hrid : getRepositoryId host bldapi name w
                 = (Ok Null, w,
                    [SetResult TaskFailed
                       ("Unable to get build id from variable: "
                        +:+ buildidVariable)])).
  { unfold getRepositoryId.
    destruct Hid as [Hid | Hid].
    - rewrite Hid. cbn [negb andb]. apply build_id_null_or_empty, Hbuild.
    - rewrite Hid. cbn. apply build_id_null_or_empty, Hbuild. }
  destruct (eqStr (vi_value v) "TfsGit"), (eqStr (vi_value v) "Git");
    try discriminate; cbn [negb andb];
    rewrite run_emit_bind; unfold bind; rewrite Hrid;
    destruct (scanVariables _ _ _ rest _ _ w) as [[r w'] t]; reflexivity.
Qed.

End BuildIdFallback.

(** C5, at the failing input: artifact A has neither a repository id
    nor a build id (both variables are absent and read as
    [undefined]); artifact B has its repository id and the service
    would create its ref.  The guard on the build id compares with
    [null] strictly, so the absent build id passes it; the build
    client is asked for build NaN and rejects; the exception ends
    discovery, the task is marked failed with the rejection's message,
    and B is neither discovered nor reconciled.  With A's build id set
    to the empty text instead, the guard holds: A is dropped, the task
    is marked failed and B is reconciled, unless B's provider key is
    scanned right after A's: then the search in B's key starts where
    the match in A's key ended, and B is not discovered either. *)
Theorem absent_build_id_aborts_run :
  run (Scenario.releaseHost Scenario.unresolvedThenResolved
         (GitServer.api GitServer.permitAll) Scenario.noBuilds)
    Scenario.tag Scenario.showStatus Scenario.emptyRepos
  = (Ok tt, Scenario.emptyRepos,
     [LogDebug "Getting repository id for artifact: A";
      CallGetBuild NaN;
      SetResult TaskFailed "Build not found"])
  /\ run (Scenario.releaseHost Scenario.emptyBuildIdThenResolved
            (GitServer.api GitServer.permitAll) Scenario.noBuilds)
       Scenario.tag Scenario.showStatus Scenario.emptyRepos
     = (Ok tt,
        <["repoB" := [mkGitRef Scenario.tag Scenario.commit2]]>
          Scenario.emptyRepos,
        [LogDebug "Getting repository id for artifact: A";
         SetResult TaskFailed
           "Unable to get build id from variable: RELEASE.ARTIFACTS.A.BUILDID";
         LogDebug "No match for variable: RELEASE.ARTIFACTS.A.BUILDID";
         LogDebug "No match for variable: RELEASE.ARTIFACTS.A.SOURCEVERSION";
         LogDebug "Getting repository id for artifact: B";
         LogDebug "No match for variable: RELEASE.ARTIFACTS.B.REPOSITORY_ID";
         LogDebug "No match for variable: RELEASE.ARTIFACTS.B.SOURCEVERSION";
         processingLine Scenario.tag Scenario.artifactB;
         CallUpdateRefs [createRequest Scenario.tag Scenario.artifactB] "repoB";
         LogDebug "Ref updated!"])
  /\ run (Scenario.releaseHost Scenario.emptyBuildIdProvidersFirst
            (GitServer.api GitServer.permitAll) Scenario.noBuilds)
       Scenario.tag Scenario.showStatus Scenario.emptyRepos
     = (Ok tt, Scenario.emptyRepos,
        [LogDebug "Getting repository id for artifact: A";
         SetResult TaskFailed
           "Unable to get build id from variable: RELEASE.ARTIFACTS.A.BUILDID";
         LogDebug "No match for variable: RELEASE.ARTIFACTS.B.REPOSITORY.PROVIDER";
         LogDebug "No match for variable: RELEASE.ARTIFACTS.A.BUILDID";
         LogDebug "No match for variable: RELEASE.ARTIFACTS.A.SOURCEVERSION";
         LogDebug "No match for variable: RELEASE.ARTIFACTS.B.REPOSITORY_ID";
         LogDebug "No match for variable: RELEASE.ARTIFACTS.B.SOURCEVERSION";
         LogWarning "No TfsGit artifacts found."]).
Proof.
  split; [vm_compute; reflexivity |].
  split; vm_compute; reflexivity.
Qed.

(** C6, at the failing input: the same six variables of a release
    with the artifacts A and B in two scan orders.  With the two
    provider keys next to each other, the match on A's key leaves
    [lastIndex] at 39 and the search in B's key starts there and
    fails: B yields no descriptor.  With another variable between the
    two keys, both artifacts are discovered. *)
Theorem discovery_depends_on_scan_order :
  getAllGitArtifacts
    (Scenario.releaseHost Scenario.twoArtifactsProvidersFirst
       (GitServer.api GitServer.permitAll) Scenario.noBuilds)
    Scenario.noBuilds Scenario.emptyRepos
  = (Ok [Scenario.artifactA], Scenario.emptyRepos,
     [LogDebug "Getting repository id for artifact: A";
      LogDebug "No match for variable: RELEASE.ARTIFACTS.B.REPOSITORY.PROVIDER";
      LogDebug "No match for variable: RELEASE.ARTIFACTS.A.REPOSITORY_ID";
      LogDebug "No match for variable: RELEASE.ARTIFACTS.A.SOURCEVERSION";
      LogDebug "No match for variable: RELEASE.ARTIFACTS.B.REPOSITORY_ID";
      LogDebug "No match for variable: RELEASE.ARTIFACTS.B.SOURCEVERSION"])
  /\ getAllGitArtifacts
       (Scenario.releaseHost Scenario.twoArtifacts
          (GitServer.api GitServer.permitAll) Scenario.noBuilds)
       Scenario.noBuilds Scenario.emptyRepos
     = (Ok [Scenario.artifactA; Scenario.artifactB], Scenario.emptyRepos,
        [LogDebug "Getting repository id for artifact: A";
         LogDebug "No match for variable: RELEASE.ARTIFACTS.A.REPOSITORY_ID";
         LogDebug "No match for variable: RELEASE.ARTIFACTS.A.SOURCEVERSION";
         LogDebug "Getting repository id for artifact: B";
         LogDebug "No match for variable: RELEASE.ARTIFACTS.B.REPOSITORY_ID";
         LogDebug "No match for variable: RELEASE.ARTIFACTS.B.SOURCEVERSION"])
  /\ JsRegExp.exec artifactRegExp 0 "RELEASE.ARTIFACTS.A.REPOSITORY.PROVIDER"
     = (Some (JsRegExp.mkMatch 0 39 [["A"%char]]), 39)
  /\ JsRegExp.exec artifactRegExp 39 "RELEASE.ARTIFACTS.B.REPOSITORY.PROVIDER"
     = (None, 0)
  /\ JsRegExp.exec artifactRegExp 0 "RELEASE.ARTIFACTS.B.REPOSITORY.PROVIDER"
     = (Some (JsRegExp.mkMatch 0 39 [["B"%char]]), 39).
Proof.
  split; [vm_compute; reflexivity |].
  split; [vm_compute; reflexivity |].
  split; [vm_compute; reflexivity |].
  split; vm_compute; reflexivity.
Qed.

(** C9, at the failing input: a release with the artifacts A and B in
    which B's SOURCEVERSION is not set, the two provider keys scanned
    one after the other.  B's key matches the pattern, its provider
    value is "TfsGit" and its repository id resolves, yet discovery
    returns the descriptor of A alone: the search in B's key starts at
    the [lastIndex] that the match in A's key left.  The same release
    with B's SOURCEVERSION set, and scanned between the two provider
    keys, yields B's descriptor, so here an unset commit variable costs
    the artifact its descriptor.  The loop itself puts no condition on
    the commit: with the variables of the failing input scanned
    artifact by artifact, B is returned with the commit [undefined]. *)
Theorem unset_commit_costs_descriptor :
  let host :=
    Scenario.releaseHost Scenario.unsetCommitProvidersFirst
      (GitServer.api GitServer.permitAll) Scenario.noBuilds in
  getAllGitArtifacts host Scenario.noBuilds Scenario.emptyRepos
  = (Ok [Scenario.artifactA], Scenario.emptyRepos,
     [LogDebug "Getting repository id for artifact: A";
      LogDebug "No match for variable: RELEASE.ARTIFACTS.B.REPOSITORY.PROVIDER";
      LogDebug "No match for variable: RELEASE.ARTIFACTS.A.REPOSITORY_ID";
      LogDebug "No match for variable: RELEASE.ARTIFACTS.A.SOURCEVERSION";
      LogDebug "No match for variable: RELEASE.ARTIFACTS.B.REPOSITORY_ID"])
  /\ In (mkVariableInfo "RELEASE.ARTIFACTS.B.REPOSITORY.PROVIDER"
           (Str "TfsGit")) (getVariables host)
  /\ JsRegExp.exec artifactRegExp 0 "RELEASE.ARTIFACTS.B.REPOSITORY.PROVIDER"
     = (Some (JsRegExp.mkMatch 0 39 [["B"%char]]), 39)
  /\ gitProvider (Str "TfsGit") = true
  /\ getRepositoryId host Scenario.noBuilds "B" Scenario.emptyRepos
     = (Ok (Str "repoB"), Scenario.emptyRepos, [])
  /\ getVariable host "RELEASE.ARTIFACTS.B.SOURCEVERSION" = Undefined
  /\ getAllGitArtifacts
       (Scenario.releaseHost Scenario.commitBetweenProviders
          (GitServer.api GitServer.permitAll) Scenario.noBuilds)
       Scenario.noBuilds Scenario.emptyRepos
     = (Ok [Scenario.artifactA; Scenario.artifactB], Scenario.emptyRepos,
        [LogDebug "Getting repository id for artifact: A";
         LogDebug "No match for variable: RELEASE.ARTIFACTS.B.SOURCEVERSION";
         LogDebug "Getting repository id for artifact: B";
         LogDebug "No match for variable: RELEASE.ARTIFACTS.A.REPOSITORY_ID";
         LogDebug "No match for variable: RELEASE.ARTIFACTS.A.SOURCEVERSION";
         LogDebug "No match for variable: RELEASE.ARTIFACTS.B.REPOSITORY_ID"])
  /\ getAllGitArtifacts
       (Scenario.releaseHost Scenario.unsetCommitSeparated
          (GitServer.api GitServer.permitAll) Scenario.noBuilds)
       Scenario.noBuilds Scenario.emptyRepos
     = (Ok [Scenario.artifactA; Scenario.artifactBNoCommit],
        Scenario.emptyRepos,
        [LogDebug "Getting repository id for artifact: A";
         LogDebug "No match for variable: RELEASE.ARTIFACTS.A.REPOSITORY_ID";
         LogDebug "No match for variable: RELEASE.ARTIFACTS.A.SOURCEVERSION";
         LogDebug "Getting repository id for artifact: B";
         LogDebug "No match for variable: RELEASE.ARTIFACTS.B.REPOSITORY_ID"]).
Proof.
  cbv zeta.
  split; [vm_compute; reflexivity |].
  split; [right; left; reflexivity |].
  split; [vm_compute; reflexivity |].
  split; [reflexivity |].
  split; [vm_compute; reflexivity |].
  split; [vm_compute; reflexivity |].
  split; vm_compute; reflexivity.
Qed.


(** * Further properties *)

(** ** Discovery, in general *)

Section DiscoveryInGeneral.
Context {W : Type}.
Variable host : Host W.
Variable bldapi : IBuildApi W.

Lemma getRepositoryId_discoveryEvent name :
  emits discoveryEvent (getRepositoryId host bldapi name).
Proof.
  unfold getRepositoryId, getRepositoryIdFromBuildNumber.
  destruct (negb _ && negb _); [apply emits_ret |].
  destruct (strictNull _ || eqStr _ _).
  - apply emits_bind; [| intros; apply emits_ret].
    apply emits_emit. cbn. exists name. reflexivity.
  - apply emits_bind; [apply emits_call; exact I |].
    intros [b|]; [| apply emits_throw].
    destruct (build_repository b); [| apply emits_throw].
    apply emits_bind; [apply emits_emit; exact I | intros; apply emits_ret].
Qed.

Lemma scanVariables_discoveryEvent regexp variables :
  forall lastIndex found,
    emits discoveryEvent
      (scanVariables host bldapi regexp variables lastIndex found).
Proof.
  induction variables as [|v rest IH]; intros lastIndex found;
    cbn [scanVariables].
  - apply emits_ret.
  - destruct (JsRegExp.exec regexp lastIndex (vi_name v)) as [[m|] li].
    + destruct (negb _ && negb _).
      * apply emits_bind; [apply emits_emit; exact I | intros; apply IH].
      * apply emits_bind; [apply emits_emit; exact I |]. intros _.
        apply emits_bind; [apply getRepositoryId_discoveryEvent |].
        intros [| | id]; apply IH.
    + apply emits_bind; [apply emits_emit; exact I | intros; apply IH].
Qed.

(** X2: discovery talks to the build client and the log only: each of
    its events is a debug line, a build lookup, or the failure that
    names the build id variable of an artifact.  It never calls the
    version-control client and logs no warning or error. *)
Theorem discovery_events :
  emits discoveryEvent (getAllGitArtifacts host bldapi).
Proof.
  rewrite getAllGitArtifacts_scan. apply scanVariables_discoveryEvent.
Qed.

Lemma scanVariables_sound (all : list VariableInfo) regexp variables :
  forall lastIndex found w arts w' t (Q : IArtifactData -> Prop),
    (forall v m li li' id,
        In v variables ->
        JsRegExp.exec regexp li (vi_name v) = (Some m, li') ->
        gitProvider (vi_value v) = true ->
        Q {| art_name := JsRegExp.group m 1;
             art_commit :=
               getVariable host
                 ("RELEASE.ARTIFACTS." +:+ JsRegExp.group m 1
                  +:+ ".SOURCEVERSION");
             art_repositoryId := id |}) ->
    Forall Q found ->
    scanVariables host bldapi regexp variables lastIndex found w
    = (Ok arts, w', t) ->
    Forall Q arts.
Proof.
  induction variables as [|v rest IH];
    intros lastIndex found w arts w' t Q HQ Hfound; cbn [scanVariables].
  - intros [= <- _ _]. exact Hfound.
  - assert (HQ' : forall v m li li' id,
               In v rest ->
               JsRegExp.exec regexp li (vi_name v) = (Some m, li') ->
               gitProvider (vi_value v) = true ->
               Q {| art_name := JsRegExp.group m 1;
                    art_commit :=
                      getVariable host
                        ("RELEASE.ARTIFACTS." +:+ JsRegExp.group m 1
                         +:+ ".SOURCEVERSION");
                    art_repositoryId := id |}).
    { intros v0 m li li' id Hin. apply HQ. right. exact Hin. }
    destruct (JsRegExp.exec regexp lastIndex (vi_name v)) as [[m|] li] eqn:E.
    + destruct (negb _ && negb _) eqn:Eprov.
      * intros H. apply bind_ok_inv in H as (_ & w1 & _ & t2 & _ & H & _).
        eapply IH; eauto.
      * intros H. apply bind_ok_inv in H as (_ & w1 & _ & t2 & _ & H & _).
        apply bind_ok_inv in H as (rid & w2 & _ & t3 & _ & H & _).
        destruct rid as [| | id]; try (eapply IH; eauto; fail).
        eapply IH; [exact HQ' | | exact H].
        apply Forall_app. split; [exact Hfound |].
        constructor; [| constructor].
        eapply HQ; [left; reflexivity | exact E |].
        unfold gitProvider.
        destruct (eqStr (vi_value v) "TfsGit"), (eqStr (vi_value v) "Git");
          cbn in Eprov |- *; congruence.
    + intros H. apply bind_ok_inv in H as (_ & w1 & _ & t2 & _ & H & _).
      eapply IH; eauto.
Qed.

(** X1: every descriptor that discovery returns comes from a scanned
    variable whose value is "Git" or "TfsGit" and whose name the
    pattern matches; the descriptor's name is the text that the group
    captures there and its commit is the SOURCEVERSION variable of
    that name.  A variable with another provider value never yields a
    descriptor. *)
Theorem discovered_from_git_provider (w w' : W) (arts : list IArtifactData)
  (t : list Event) :
  getAllGitArtifacts host bldapi w = (Ok arts, w', t) ->
  forall a, In a arts ->
    (exists v, In v (getVariables host) /\ providerOf v (art_name a))
    /\ art_commit a
       = getVariable host (artifactKey (art_name a) ".SOURCEVERSION").
Proof.
  intros Hrun. rewrite getAllGitArtifacts_scan in Hrun.
  set (Q := fun a =>
              (exists v, In v (getVariables host)
                         /\ providerOf v (art_name a))
              /\ art_commit a
                 = getVariable host
                     (artifactKey (art_name a) ".SOURCEVERSION")).
  assert (Hall : Forall Q arts).
  { eapply (scanVariables_sound (getVariables host) artifactRegExp
              (getVariables host) 0 [] w arts w' t Q); [| constructor | exact Hrun].
    intros v m li li' id Hv Hexec Hprov. split; [| reflexivity].
    exists v. split; [exact Hv |]. split; [exact Hprov |].
    exists li, m, li'. auto. }
  intros a Hin. exact (proj1 (List.Forall_forall Q arts) Hall a Hin).
Qed.

End DiscoveryInGeneral.

Lemma discovered_from_git_provider_witness :
  (exists v,
      In v (getVariables
              (Scenario.releaseHost Scenario.twoArtifacts
                 (GitServer.api GitServer.permitAll) Scenario.noBuilds))
      /\ providerOf v "A")
  /\ Str Scenario.commit1
     = getVariable
         (Scenario.releaseHost Scenario.twoArtifacts
            (GitServer.api GitServer.permitAll) Scenario.noBuilds)
         (artifactKey "A" ".SOURCEVERSION").
Proof.
  refine (discovered_from_git_provider
            (Scenario.releaseHost Scenario.twoArtifacts
               (GitServer.api GitServer.permitAll) Scenario.noBuilds)
            Scenario.noBuilds Scenario.emptyRepos Scenario.emptyRepos
            [Scenario.artifactA; Scenario.artifactB]
            [LogDebug "Getting repository id for artifact: A";
             LogDebug "No match for variable: RELEASE.ARTIFACTS.A.REPOSITORY_ID";
             LogDebug "No match for variable: RELEASE.ARTIFACTS.A.SOURCEVERSION";
             LogDebug "Getting repository id for artifact: B";
             LogDebug "No match for variable: RELEASE.ARTIFACTS.B.REPOSITORY_ID";
             LogDebug "No match for variable: RELEASE.ARTIFACTS.B.SOURCEVERSION"]
            _ Scenario.artifactA _).
  - vm_compute. reflexivity.
  - left. reflexivity.
Defined.

Section DirectIds.
Context {W : Type}.
Variable host : Host W.
Variable bldapi : IBuildApi W.

Lemma getRepositoryId_direct name id (w : W) :
  getVariable host (artifactKey name ".REPOSITORY_ID") = Str id ->
  id <> "" ->
  getRepositoryId host bldapi name w = (Ok (Str id), w, []).
Proof.
  intros Hid Hne. unfold getRepositoryId. unfold artifactKey in Hid.
  rewrite Hid. cbn [looseNull negb eqStr andb].
  destruct (String.eqb_spec id ""); [contradiction | reflexivity].
Qed.

Lemma scanVariables_direct regexp variables :
  (forall v m li li',
      In v variables ->
      JsRegExp.exec regexp li (vi_name v) = (Some m, li') ->
      gitProvider (vi_value v) = true ->
      exists id,
        getVariable host (artifactKey (JsRegExp.group m 1) ".REPOSITORY_ID")
        = Str id /\ id <> "") ->
  forall lastIndex found w,
  exists arts t,
    scanVariables host bldapi regexp variables lastIndex found w
    = (Ok arts, w, t)
    /\ Forall isDebug t.
Proof.
  induction variables as [|v rest IH]; intros Hdirect lastIndex found w;
    cbn [scanVariables].
  - exists found, []. split; [reflexivity | constructor].
  - assert (Hrest : forall v m li li',
               In v rest ->
               JsRegExp.exec regexp li (vi_name v) = (Some m, li') ->
               gitProvider (vi_value v) = true ->
               exists id,
                 getVariable host
                   (artifactKey (JsRegExp.group m 1) ".REPOSITORY_ID")
                 = Str id /\ id <> "").
    { intros v0 m li li' Hin. apply Hdirect. right. exact Hin. }
    destruct (JsRegExp.exec regexp lastIndex (vi_name v)) as [[m|] li] eqn:E.
    + destruct (negb _ && negb _) eqn:Eprov.
      * destruct (IH Hrest li found w) as (arts & t & Hscan & Ht).
        rewrite run_emit_bind, Hscan. eexists _, _. split; [reflexivity |].
        constructor; [exact I | exact Ht].
      * destruct (Hdirect v m lastIndex li (or_introl eq_refl) E)
          as (id & Hid & Hne).
        { unfold gitProvider.
          destruct (eqStr (vi_value v) "TfsGit"), (eqStr (vi_value v) "Git");
            cbn in Eprov |- *; congruence. }
        rewrite run_emit_bind. unfold bind at 1.
        rewrite (getRepositoryId_direct _ id w Hid Hne).
        destruct (IH Hrest li
                    (found ++ [mkArtifact (JsRegExp.group m 1)
                                 (getVariable host
                                    ("RELEASE.ARTIFACTS."
                                     +:+ JsRegExp.group m 1
                                     +:+ ".SOURCEVERSION")) id]) w)
          as (arts & t & Hscan & Ht).
        rewrite Hscan. eexists _, _. split; [reflexivity |].
        constructor; [exact I | exact Ht].
    + destruct (IH Hrest li found w) as (arts & t & Hscan & Ht).
      rewrite run_emit_bind, Hscan. eexists _, _. split; [reflexivity |].
      constructor; [exact I | exact Ht].
Qed.

(** X3: when every provider key with an accepted value has a
    non-empty REPOSITORY_ID variable for the name it captures,
    discovery returns without an exception, asks the build client
    nothing, leaves the world as it is and logs debug lines only: the
    task is not marked failed. *)
Theorem direct_ids_need_no_build (w : W) :
  (forall v name,
      In v (getVariables host) -> providerOf v name ->
      exists id,
        getVariable host (artifactKey name ".REPOSITORY_ID") = Str id
        /\ id <> "") ->
  exists arts t,
    getAllGitArtifacts host bldapi w = (Ok arts, w, t) /\ Forall isDebug t.
Proof.
  intros Hdirect. rewrite getAllGitArtifacts_scan.
  apply scanVariables_direct.
  intros v m li li' Hin Hexec Hprov. apply (Hdirect v); [exact Hin |].
  split; [exact Hprov |]. exists li, m, li'. auto.
Qed.

End DirectIds.

Lemma direct_ids_need_no_build_witness :
  exists arts t,
    getAllGitArtifacts
      (Scenario.releaseHost Scenario.noCommit
         (GitServer.api GitServer.permitAll) Scenario.noBuilds)
      Scenario.noBuilds Scenario.emptyRepos
    = (Ok arts, Scenario.emptyRepos, t)
    /\ Forall isDebug t.
Proof.
  apply direct_ids_need_no_build.
  intros v name [<- | [<- | []]] [Hprov (li & m & li' & Hexec & ->)].
  - exists "repoA".
    do 40 (destruct li as [|li];
           [vm_compute in Hexec;
            first [discriminate
                  | injection Hexec as <- _; split; [reflexivity | discriminate]]
           |]).
    vm_compute in Hexec. discriminate.
  - discriminate.
Defined.

(** X4: an artifact without a repository id whose build id variable
    reads as [null] or as the empty text is dropped: the task is
    marked failed with the message that names the build id variable,
    the build client is not asked, and the scan goes on with the
    variables that follow and the descriptors found so far. *)
Theorem missing_build_id_drops_artifact {W} (host : Host W)
  (bldapi : IBuildApi W) (name : string) (regexp : JsRegExp.RegExp)
  (v : VariableInfo) (rest : list VariableInfo) (lastIndex lastIndex' : nat)
  (found : list IArtifactData) (m : JsRegExp.MatchResult) (w : W) :
  name = JsRegExp.group m 1 ->
  JsRegExp.exec regexp lastIndex (vi_name v) = (Some m, lastIndex') ->
  gitProvider (vi_value v) = true ->
  looseNull (getVariable host (artifactKey name ".REPOSITORY_ID")) = true
  \/ getVariable host (artifactKey name ".REPOSITORY_ID") = Str "" ->
  getVariable host (artifactKey name ".BUILDID") = Null
  \/ getVariable host (artifactKey name ".BUILDID") = Str "" ->
  scanVariables host bldapi regexp (v :: rest) lastIndex found w
  = match scanVariables host bldapi regexp rest lastIndex' found w with
    | (r, w', t) =>
        (r, w',
         LogDebug ("Getting repository id for artifact: " +:+ name)
           :: SetResult TaskFailed
                ("Unable to get build id from variable: "
                 +:+ artifactKey name ".BUILDID")
           :: t)
    end.
Proof.
  intros Hname Hexec Hprov Hid Hbuild.
  apply (unresolved_artifact_is_dropped host bldapi name regexp v rest
           lastIndex lastIndex' found m w); assumption.
Qed.

Lemma missing_build_id_drops_artifact_witness :
  let host :=
    Scenario.releaseHost Scenario.emptyBuildIdThenResolved
      (GitServer.api GitServer.permitAll) Scenario.noBuilds in
  scanVariables host Scenario.noBuilds artifactRegExp (getVariables host)
    0 [] Scenario.emptyRepos
  = match
      scanVariables host Scenario.noBuilds artifactRegExp
        (tl (getVariables host)) 39 [] Scenario.emptyRepos
    with
    | (r, w', t) =>
        (r, w',
         LogDebug "Getting repository id for artifact: A"
           :: SetResult TaskFailed
                "Unable to get build id from variable: RELEASE.ARTIFACTS.A.BUILDID"
           :: t)
    end.
Proof.
  intros host.
  apply (missing_build_id_drops_artifact host Scenario.noBuilds "A"
           artifactRegExp
           (mkVariableInfo "RELEASE.ARTIFACTS.A.REPOSITORY.PROVIDER"
              (Str "Git"))
           (tl (getVariables host)) 0 39 []
           (JsRegExp.mkMatch 0 39 [["A"%char]]) Scenario.emptyRepos).
  - reflexivity.
  - vm_compute. reflexivity.
  - reflexivity.
  - left. reflexivity.
  - right. reflexivity.
Defined.

Section LegacyLookup.
Context {W : Type}.
Variable host : Host W.
Variable bldapi : IBuildApi W.

(** X5: an artifact without a repository id variable and with a build
    id: the build client is asked once, for the number of the build
    id, and the repository id of the build is logged.  When it is a
    text, the descriptor is appended with it; when it is [null] or
    [undefined], the artifact is skipped and nothing marks the task
    failed. *)
Theorem build_lookup_decides (regexp : JsRegExp.RegExp) (v : VariableInfo)
  (rest : list VariableInfo) (lastIndex lastIndex' : nat)
  (found : list IArtifactData) (m : JsRegExp.MatchResult) (name buildid : string)
  (rid : JSVal) (w w1 : W) :
  name = JsRegExp.group m 1 ->
  JsRegExp.exec regexp lastIndex (vi_name v) = (Some m, lastIndex') ->
  gitProvider (vi_value v) = true ->
  looseNull (getVariable host (artifactKey name ".REPOSITORY_ID")) = true
  \/ getVariable host (artifactKey name ".REPOSITORY_ID") = Str "" ->
  getVariable host (artifactKey name ".BUILDID") = Str buildid ->
  buildid <> "" ->
  getBuild bldapi (Number_ (Str buildid)) w
  = (Ok (Some (mkBuild (Some rid))), w1) ->
  scanVariables host bldapi regexp (v :: rest) lastIndex found w
  = match
      scanVariables host bldapi regexp rest lastIndex'
        (match rid with
         | Str id =>
             found
               ++ [{| art_name := name;
                      art_commit :=
                        getVariable host (artifactKey name ".SOURCEVERSION");
                      art_repositoryId := id |}]
         | _ => found
         end) w1
    with
    | (r, w2, t) =>
        (r, w2,
         LogDebug ("Getting repository id for artifact: " +:+ name)
           :: CallGetBuild (Number_ (Str buildid))
           :: LogDebug ("Got repositoryid: " +:+ toStr rid)
           :: t)
    end.
Proof.
  intros Hname Hexec Hprov Hid Hbuild Hne Hget.
  cbn [scanVariables]. rewrite Hexec. rewrite <- Hname.
  unfold artifactKey in *.
  assert (Hrid : getRepositoryId host bldapi name w
                 = (Ok rid, w1,
                    [CallGetBuild (Number_ (Str buildid));
                     LogDebug ("Got repositoryid: " +:+ toStr rid)])).
  { unfold getRepositoryId, getRepositoryIdFromBuildNumber.
    assert (Hguard : negb (looseNull (getVariable host
                        ("RELEASE.ARTIFACTS." +:+ name +:+ ".REPOSITORY_ID")))
                     && negb (eqStr (getVariable host
                        ("RELEASE.ARTIFACTS." +:+ name +:+ ".REPOSITORY_ID")) "")
                     = false).
    { destruct Hid as [Hid | Hid]; rewrite Hid; reflexivity. }
    rewrite Hguard, Hbuild. cbn [strictNull eqStr orb].
    destruct (String.eqb_spec buildid ""); [contradiction |].
    unfold bind at 1. erewrite run_call by exact Hget. reflexivity. }
  unfold gitProvider in Hprov.
  destruct (eqStr (vi_value v) "TfsGit"), (eqStr (vi_value v) "Git");
    try discriminate; cbn [negb andb];
    rewrite run_emit_bind; unfold bind; rewrite Hrid;
    destruct rid as [| | id];
    match goal with
    | |- context [scanVariables host bldapi regexp rest lastIndex' ?f w1] =>
        destruct (scanVariables host bldapi regexp rest lastIndex' f w1)
          as [[r w2] t]
    end; reflexivity.
Qed.

End LegacyLookup.

Lemma build_lookup_decides_witness :
  getAllGitArtifacts
    (Scenario.releaseHost Scenario.legacyArtifact
       (GitServer.api GitServer.permitAll) (Scenario.buildSeven Null))
    (Scenario.buildSeven Null) Scenario.emptyRepos
  = (Ok [], Scenario.emptyRepos,
     [LogDebug "Getting repository id for artifact: A";
      CallGetBuild (Num 7);
      LogDebug "Got repositoryid: null";
      LogDebug "No match for variable: RELEASE.ARTIFACTS.A.BUILDID";
      LogDebug "No match for variable: RELEASE.ARTIFACTS.A.SOURCEVERSION"]).
Proof.
  rewrite getAllGitArtifacts_scan.
  change (getVariables _)
    with (mkVariableInfo "RELEASE.ARTIFACTS.A.REPOSITORY.PROVIDER" (Str "Git")
            :: [mkVariableInfo "RELEASE.ARTIFACTS.A.BUILDID" (Str "7");
                mkVariableInfo "RELEASE.ARTIFACTS.A.SOURCEVERSION"
                  (Str Scenario.commit1)]).
  rewrite (build_lookup_decides _ (Scenario.buildSeven Null) artifactRegExp
             _ _ 0 39 [] (JsRegExp.mkMatch 0 39 [["A"%char]]) "A" "7" Null
             Scenario.emptyRepos Scenario.emptyRepos).
  - vm_compute. reflexivity.
  - reflexivity.
  - vm_compute. reflexivity.
  - reflexivity.
  - left. reflexivity.
  - reflexivity.
  - discriminate.
  - reflexivity.
Defined.

(** X7: on the provider key of an artifact, spelled with the dots and
    in any letter case, the pattern matches from index 0 over the
    whole key and its group captures the artifact name as it is
    spelled in the key, also a name that holds dots; [lastIndex] is
    left at the end of the key. *)
Theorem provider_key_captures_name (pre name suf : string) :
  sameLetters pre "RELEASE.ARTIFACTS." ->
  sameLetters suf ".REPOSITORY.PROVIDER" ->
  noLineTerminator name ->
  exists m,
    JsRegExp.exec artifactRegExp 0 (pre +:+ name +:+ suf)
    = (Some m, String.length (pre +:+ name +:+ suf))
    /\ JsRegExp.index m = 0
    /\ JsRegExp.group m 1 = name.
Proof.
  intros Hpre Hsuf Hname. eexists. split.
  - apply exec_provider_key; assumption.
  - split; [reflexivity |]. cbn [JsRegExp.group JsRegExp.captures nth].
    apply string_of_list_ascii_of_string.
Qed.

Lemma provider_key_captures_name_witness :
  exists m,
    JsRegExp.exec artifactRegExp 0
      "release.artifacts.My.Art.repository.provider"
    = (Some m, 44)
    /\ JsRegExp.index m = 0
    /\ JsRegExp.group m 1 = "My.Art".
Proof.
  apply (provider_key_captures_name "release.artifacts." "My.Art"
           ".repository.provider").
  - reflexivity.
  - reflexivity.
  - repeat constructor.
Defined.

(** X6: the provider key of an artifact, spelled with the dots and in
    any letter case, with the value "Git" or "TfsGit" and a repository
    id that resolves, yields the descriptor of that artifact, with the
    name as spelled in the key, the resolved repository id and the
    SOURCEVERSION variable as commit, provided that the search in the
    key starts at index 0 (the key is the first variable scanned, or
    the pattern did not match the variable before it) and that
    discovery returns. *)
Theorem provider_key_is_discovered {W} (host : Host W) (bldapi : IBuildApi W)
  (before after : list VariableInfo) (v : VariableInfo)
  (pre name suf id : string) (w w' : W) (arts : list IArtifactData)
  (t : list Event) :
  getVariables host = before ++ v :: after ->
  lastIndexAfter artifactRegExp before 0 = 0 ->
  vi_name v = pre +:+ name +:+ suf ->
  sameLetters pre "RELEASE.ARTIFACTS." ->
  sameLetters suf ".REPOSITORY.PROVIDER" ->
  noLineTerminator name ->
  gitProvider (vi_value v) = true ->
  (forall w0, exists w1 t1,
      getRepositoryId host bldapi name w0 = (Ok (Str id), w1, t1)) ->
  getAllGitArtifacts host bldapi w = (Ok arts, w', t) ->
  In {| art_name := name;
        art_commit := getVariable host (artifactKey name ".SOURCEVERSION");
        art_repositoryId := id |} arts.
Proof.
  intros Hvars Hzero Hkey Hpre Hsuf Hname Hprov Hid Hrun.
  exact (discovery_of_provider_key host bldapi before after v pre name suf
           id w w' arts t Hvars Hzero Hkey Hpre Hsuf Hname Hprov Hid Hrun).
Qed.

Lemma provider_key_is_discovered_witness :
  In (mkArtifact "My.Art" (Str Scenario.commit1) "repoA")
    [mkArtifact "My.Art" (Str Scenario.commit1) "repoA"].
Proof.
  refine (provider_key_is_discovered
            (Scenario.releaseHost Scenario.dottedName
               (GitServer.api GitServer.permitAll) Scenario.noBuilds)
            Scenario.noBuilds []
            (tl (getVariables
                   (Scenario.releaseHost Scenario.dottedName
                      (GitServer.api GitServer.permitAll) Scenario.noBuilds)))
            (mkVariableInfo "release.artifacts.My.Art.repository.provider"
               (Str "Git"))
            "release.artifacts." "My.Art" ".repository.provider" "repoA"
            Scenario.emptyRepos Scenario.emptyRepos
            [mkArtifact "My.Art" (Str Scenario.commit1) "repoA"]
            [LogDebug "Getting repository id for artifact: My.Art";
             LogDebug "No match for variable: RELEASE.ARTIFACTS.My.Art.REPOSITORY_ID";
             LogDebug "No match for variable: RELEASE.ARTIFACTS.My.Art.SOURCEVERSION"]
            _ _ _ _ _ _ _ _ _).
  - reflexivity.
  - reflexivity.
  - reflexivity.
  - reflexivity.
  - reflexivity.
  - repeat constructor.
  - reflexivity.
  - intros w0. exists w0, []. reflexivity.
  - vm_compute. reflexivity.
Defined.

(** ** How long a match is *)

Section MatchLength.
Import JsRegExp.
Variable ic : bool.

Lemma repeatItem_inv {R : Type} (it : Item)
  (continue : list ascii -> list ascii -> option R) (s : list ascii) :
  forall taken n r,
    repeatItem ic it continue s taken n = Some r ->
    exists k,
      minCount (iquant it) <= n + k /\ k <= length s
      /\ continue (rev (firstn k s) ++ taken) (skipn k s) = Some r.
Proof.
  induction s as [|c s IH]; intros taken n r; cbn [repeatItem].
  - destruct (Nat.leb_spec (minCount (iquant it)) n) as [Hle | Hgt];
      [| discriminate].
    intros Hc. exists 0. cbn. repeat split; [lia | lia | exact Hc].
  - assert (Hstop :
      (if Nat.leb (minCount (iquant it)) n then continue taken (c :: s)
       else None) = Some r ->
      exists k,
        minCount (iquant it) <= n + k /\ k <= length (c :: s)
        /\ continue (rev (firstn k (c :: s)) ++ taken) (skipn k (c :: s))
           = Some r).
    { destruct (Nat.leb_spec (minCount (iquant it)) n) as [Hle | Hgt];
        [| discriminate].
      intros Hc. exists 0. cbn. repeat split; [lia | lia | exact Hc]. }
    destruct (belowMax (iquant it) n && accepts ic (icls it) c);
      [| exact Hstop].
    destruct (repeatItem ic it continue s (c :: taken) (S n)) as [r'|] eqn:E;
      [| exact Hstop].
    intros [= ->]. apply IH in E as (k & Hmin & Hk & Hcont).
    exists (S k). cbn [firstn skipn rev length].
    rewrite <- app_assoc. cbn [app]. repeat split; [lia | lia | exact Hcont].
Qed.

(** A match takes at least [minLength] characters. *)
Lemma matchItems_length p :
  forall s caps rest,
    matchItems ic p s = Some (caps, rest) ->
    minLength p + length rest <= length s.
Proof.
  induction p as [|it p IH]; intros s caps rest; cbn [matchItems].
  - intros [= _ <-]. cbn. lia.
  - intros H. apply repeatItem_inv in H as (k & Hmin & Hk & Hcont).
    destruct (matchItems ic p (skipn k s)) as [[caps' r]|] eqn:E;
      [| discriminate].
    injection Hcont as _ <-. apply IH in E.
    rewrite length_skipn in E.
    change (minLength (it :: p))
      with (minCount (iquant it) + minLength p).
    lia.
Qed.

Lemma search_short p s idx :
  length s < minLength p -> search ic p s idx = None.
Proof.
  revert idx. induction s as [|c s IH]; intros idx Hlen; cbn [search].
  - destruct (matchItems ic p []) as [[caps rest]|] eqn:E; [| reflexivity].
    apply matchItems_length in E. cbn in *. lia.
  - destruct (matchItems ic p (c :: s)) as [[caps rest]|] eqn:E.
    + apply matchItems_length in E. lia.
    + apply IH. cbn in Hlen. lia.
Qed.

End MatchLength.

(** The search of the pattern from [lastIndex] needs 38 characters
    from there on. *)
Lemma exec_needs_room (lastIndex : nat) (name : string) :
  String.length name < lastIndex + 38 ->
  JsRegExp.exec artifactRegExp lastIndex name = (None, 0).
Proof.
  intros Hlen. unfold JsRegExp.exec.
  change (JsRegExp.global artifactRegExp) with true.
  rewrite length_list_ascii_of_string.
  destruct (Nat.ltb_spec (String.length name) lastIndex); [reflexivity |].
  rewrite search_short; [reflexivity |].
  rewrite length_skipn, length_list_ascii_of_string.
  change (minLength (JsRegExp.items artifactRegExp)) with 38. lia.
Qed.

(** X8: while the pattern object's [lastIndex] is [lastIndex], a
    variable whose name has fewer than [lastIndex + 38] characters is
    never matched, whatever its name and value: it is logged as no
    match and the scan goes on from index 0.  After a match, which
    leaves [lastIndex] at its end, this is the fate of every variable
    that is not at least 38 characters longer. *)
Theorem short_name_is_not_matched {W} (host : Host W) (bldapi : IBuildApi W)
  (v : VariableInfo) (rest : list VariableInfo) (lastIndex : nat)
  (found : list IArtifactData) (w : W) :
  String.length (vi_name v) < lastIndex + 38 ->
  scanVariables host bldapi artifactRegExp (v :: rest) lastIndex found w
  = match scanVariables host bldapi artifactRegExp rest 0 found w with
    | (r, w', t) =>
        (r, w', LogDebug ("No match for variable: " +:+ vi_name v) :: t)
    end.
Proof.
  intros Hlen. cbn [scanVariables].
  rewrite (exec_needs_room lastIndex (vi_name v) Hlen).
  apply run_emit_bind.
Qed.

Lemma short_name_is_not_matched_witness :
  let host :=
    Scenario.releaseHost Scenario.twoArtifactsProvidersFirst
      (GitServer.api GitServer.permitAll) Scenario.noBuilds in
  scanVariables host Scenario.noBuilds artifactRegExp
    (tl (getVariables host)) 39 [Scenario.artifactA] Scenario.emptyRepos
  = match
      scanVariables host Scenario.noBuilds artifactRegExp
        (tl (tl (getVariables host))) 0 [Scenario.artifactA]
        Scenario.emptyRepos
    with
    | (r, w', t) =>
        (r, w',
         LogDebug
           "No match for variable: RELEASE.ARTIFACTS.B.REPOSITORY.PROVIDER"
           :: t)
    end.
Proof.
  intros host.
  apply (short_name_is_not_matched host Scenario.noBuilds
           (mkVariableInfo "RELEASE.ARTIFACTS.B.REPOSITORY.PROVIDER"
              (Str "TfsGit"))
           (tl (tl (getVariables host))) 39 [Scenario.artifactA]
           Scenario.emptyRepos).
  cbn. lia.
Defined.

(** ** The default rule of the ref name *)

Section WhiteSpaceRule.
Import JsRegExp.

Let wsItem : Item := mkItem CSpace QPlus false.
Let noWs (c : ascii) : bool := negb (isWhiteSpace c).

Lemma whiteSpaceRegExp_new :
  RegExp_new defaultSearchPattern defaultRegexFlags = Some whiteSpaceRegExp.
Proof. reflexivity. Qed.

Lemma length_dropWhiteSpace s : length (dropWhiteSpace s) <= length s.
Proof.
  induction s as [|c s IH]; cbn; [lia |].
  destruct (isWhiteSpace c); cbn; lia.
Qed.

(** The run of white space at the head of the input, all of it. *)
Lemma repeat_whiteSpace s :
  forall taken n,
    repeatItem false wsItem
      (fun _ rest => Some (@nil (list ascii), rest)) s taken n
    = if Nat.leb 1 n || match s with c :: _ => isWhiteSpace c | [] => false end
      then Some ([], dropWhiteSpace s)
      else None.
Proof.
  induction s as [|c s IH]; intros taken n; cbn [repeatItem].
  - cbn. destruct n; reflexivity.
  - cbn [wsItem iquant icls belowMax maxCount minCount accepts andb
         dropWhiteSpace].
    destruct (isWhiteSpace c).
    + rewrite IH. cbn [Nat.leb orb]. rewrite orb_true_r. reflexivity.
    + rewrite orb_false_r. destruct n; reflexivity.
Qed.

Lemma matchItems_whiteSpace s :
  matchItems false [wsItem] s
  = match s with
    | c :: _ => if isWhiteSpace c then Some ([], dropWhiteSpace s) else None
    | [] => None
    end.
Proof.
  cbn [matchItems].
  change (fun (taken rest : list ascii) =>
            match Some (@nil (list ascii), rest) with
            | Some (caps, r) =>
                Some (if icapture wsItem then rev taken :: caps else caps, r)
            | None => None
            end)
    with (fun (_ rest : list ascii) => Some (@nil (list ascii), rest)).
  rewrite repeat_whiteSpace. destruct s as [|c s]; reflexivity.
Qed.

(** The search finds the first run of white space, or the input has
    none. *)
Lemma search_whiteSpace s :
  forall idx,
    (search false [wsItem] s idx = None /\ List.filter noWs s = s)
    \/ exists pre run rest,
         s = pre ++ run ++ rest
         /\ run <> []
         /\ List.filter noWs pre = pre
         /\ List.filter noWs run = []
         /\ search false [wsItem] s idx
            = Some (mkMatch (idx + length pre)
                      (idx + length pre + length run) []).
Proof.
  induction s as [|c s IH]; intros idx.
  - left. split; reflexivity.
  - cbn [search]. rewrite matchItems_whiteSpace.
    destruct (isWhiteSpace c) eqn:Ec.
    + right.
      assert (Hrun : forall t,
                 exists run, t = run ++ dropWhiteSpace t
                             /\ List.filter noWs run = []).
      { induction t as [|d t [run [Ht Hf]]]; [exists []; split; reflexivity |].
        cbn [dropWhiteSpace]. destruct (isWhiteSpace d) eqn:Ed.
        - exists (d :: run). cbn. unfold noWs at 1. rewrite Ed. cbn.
          split; [congruence | exact Hf].
        - exists []. split; reflexivity. }
      destruct (Hrun s) as (run & Hs & Hf).
      exists [], (c :: run), (dropWhiteSpace s).
      repeat split.
      * cbn. congruence.
      * discriminate.
      * cbn. unfold noWs at 1. rewrite Ec. exact Hf.
      * cbn [dropWhiteSpace]. rewrite Ec.
        pose proof (f_equal (@length ascii) Hs) as Hlen.
        rewrite length_app in Hlen.
        f_equal. f_equal; cbn [length]; lia.
    + destruct (IH (S idx)) as [[Hnone Hf] | (pre & run & rest & Hs & Hne & Hp & Hr & Hsearch)].
      * left. split; [exact Hnone |].
        cbn. unfold noWs at 1. rewrite Ec. cbn. congruence.
      * right. exists (c :: pre), run, rest. repeat split.
        -- cbn. congruence.
        -- exact Hne.
        -- cbn. unfold noWs at 1. rewrite Ec. cbn. congruence.
        -- exact Hr.
        -- rewrite Hsearch. cbn [length]. do 2 f_equal; lia.
Qed.

(** Replacing every match by nothing leaves the text that is not
    white space. *)
Lemma substitute_whiteSpace (str : string) :
  forall fuel done s,
    list_ascii_of_string str = done ++ s ->
    length s < fuel ->
    substitute (list_ascii_of_string str) (length done)
      (matches fuel whiteSpaceRegExp (length done) str) []
    = List.filter noWs s.
Proof.
  induction fuel as [|fuel IH]; intros done s Hstr Hfuel; [lia |].
  cbn [matches]. unfold exec.
  change (global whiteSpaceRegExp) with true.
  change (ignoreCase whiteSpaceRegExp) with false.
  change (items whiteSpaceRegExp) with [wsItem].
  rewrite Hstr, length_app.
  destruct (Nat.ltb_spec (length done + length s) (length done)); [lia |].
  rewrite skipn_app, skipn_all, Nat.sub_diag, drop_0. cbn [app].
  destruct (search_whiteSpace s (length done))
    as [[Hnone Hf] | (pre & run & rest & Hs & Hne & Hp & Hr & Hsearch)].
  - rewrite Hnone. cbn [substitute].
    rewrite skipn_app, skipn_all, Nat.sub_diag, drop_0. cbn [app].
    congruence.
  - rewrite Hsearch. cbn [endIndex index].
    destruct (Nat.eqb_spec (length done + length pre + length run)
                (length done + length pre)) as [Heq | _].
    { destruct run; [contradiction | cbn in Heq; lia]. }
    cbn [substitute index endIndex].
    destruct (Nat.leb_spec (length done) (length done + length pre)); [| lia].
    rewrite skipn_app, skipn_all, Nat.sub_diag, drop_0. cbn [app].
    replace (length done + length pre - length done) with (length pre) by lia.
    rewrite Hs at 1. rewrite firstn_app, firstn_all, Nat.sub_diag.
    cbn [firstn]. rewrite app_nil_r.
    assert (Hstr' : list_ascii_of_string str = (done ++ pre ++ run) ++ rest).
    { rewrite Hstr, Hs, <- !app_assoc. reflexivity. }
    specialize (IH (done ++ pre ++ run) rest Hstr').
    rewrite !length_app, Nat.add_assoc in IH.
    rewrite <- Hstr, IH.
    + rewrite Hs, !List.filter_app, Hp, Hr. reflexivity.
    + rewrite Hs, !length_app in Hfuel.
      destruct run; [contradiction | cbn in Hfuel; lia].
Qed.

Lemma replace_whiteSpace (str : string) :
  replace str whiteSpaceRegExp "" = Some (stripWhiteSpace str).
Proof.
  unfold replace. cbn [list_ascii_of_string existsb].
  rewrite (substitute_whiteSpace str _ [] (list_ascii_of_string str));
    [reflexivity | reflexivity | lia].
Qed.

End WhiteSpaceRule.

(** X9: with the three inputs at their defaults, the ref name derived
    from a release name of ASCII text is the prefix followed by the
    release name without its tabs, line breaks and spaces (the white
    space of ASCII); the prefix itself is not rewritten, the world is
    left alone and the rule and the name are logged. *)
Theorem generateRef_strips_white_space {W} (host : Host W)
  (releaseName prefix : string) (w : W) :
  asciiText releaseName = true ->
  getInputOrDefault host "searchRegex" defaultSearchPattern = "\s+" ->
  getInputOrDefault host "regexFlags" defaultRegexFlags = "g" ->
  getInputOrDefault host "replacePattern" defaultReplacePattern = "" ->
  generateRef host releaseName prefix w
  = (Ok (prefix +:+ stripWhiteSpace releaseName), w,
     [LogDebug "Search Regex: '\s+', Replace Pattern: '', flags: 'g'";
      LogDebug ("RefName: '" +:+ (prefix +:+ stripWhiteSpace releaseName)
                +:+ "'")]).
Proof.
  intros _ Hs Hf Hr. unfold generateRef. rewrite Hs, Hf, Hr. cbv zeta.
  change (JsRegExp.RegExp_new "\s+" "g") with (Some whiteSpaceRegExp).
  rewrite run_emit_bind, replace_whiteSpace, run_emit_bind. reflexivity.
Qed.

Lemma generateRef_strips_white_space_witness :
  generateRef Scenario.bareHost "Release 2024  07 b" "refs/heads/release/"
    Scenario.emptyRepos
  = (Ok "refs/heads/release/Release202407b", Scenario.emptyRepos,
     [LogDebug "Search Regex: '\s+', Replace Pattern: '', flags: 'g'";
      LogDebug "RefName: 'refs/heads/release/Release202407b'"]).
Proof.
  apply (generateRef_strips_white_space Scenario.bareHost
           "Release 2024  07 b" "refs/heads/release/" Scenario.emptyRepos);
    reflexivity.
Defined.

(** ** The reconciler, in general *)

(** An event is none of the listed ones. *)
Ltac not_among :=
  let H := fresh "H" in
  cbn; intros H;
  repeat (destruct H as [H | H]; [discriminate |]);
  destruct H.

Section ReconcilerInGeneral.
Context {W : Type}.
Variable refName : string.
Variable showStatus : GitRefUpdateStatus -> string.
Variable artifact : IArtifactData.
Variable gitapi : IGitApi W.

Let repo := art_repositoryId artifact.

(** The run of [processArtifact], case by case on what the client
    answers. *)
Lemma processArtifact_run (w : W) :
  processArtifact refName showStatus artifact gitapi w
  = match updateRefs gitapi [createRequest refName artifact] repo w with
    | (Throw e, w1) =>
        (Throw e, w1,
         [processingLine refName artifact; createCall refName artifact])
    | (Ok None, w1) | (Ok (Some []), w1) =>
        (Throw (cannotRead "success" Null), w1,
         [processingLine refName artifact; createCall refName artifact;
          LogWarning "No update result returned from updateRefs"])
    | (Ok (Some (r :: _)), w1) =>
        if res_success r then
          (Ok tt, w1,
           [processingLine refName artifact; createCall refName artifact;
            LogDebug "Ref updated!"])
        else
          match doesRefExist artifact refName gitapi w1 with
          | (Ok found, w2, t2) =>
              (Ok tt, w2,
               [processingLine refName artifact; createCall refName artifact]
                 ++ t2
                 ++ (if found then []
                     else permissionEvents (res_updateStatus r)
                            ++ [permissionsPointer artifact;
                                unableToCreate refName showStatus r]))
          | (Throw e, w2, t2) =>
              (Throw e, w2,
               [processingLine refName artifact; createCall refName artifact]
                 ++ t2)
          end
    end.
Proof.
  destruct (updateRefs gitapi [createRequest refName artifact] repo w)
    as [[res|e] w1] eqn:Hupd.
  - destruct res as [[|r rs]|].
    + eapply processArtifact_no_result; eauto.
    + destruct (res_success r) eqn:Hok.
      * eapply processArtifact_updated; eauto.
      * destruct (doesRefExist artifact refName gitapi w1)
          as [[[found|e] w2] t2] eqn:Hex.
        -- eapply processArtifact_failed_create; eauto.
        -- unfold processArtifact, updateRef. rewrite run_emit_bind.
           unfold bind at 1. unfold bind at 1.
           erewrite run_call by exact Hupd. cbn. rewrite Hok.
           unfold bind at 1. rewrite Hex. reflexivity.
    + eapply processArtifact_no_result; eauto.
  - unfold processArtifact, updateRef. rewrite run_emit_bind.
    unfold bind at 1. unfold bind at 1.
    erewrite run_call by exact Hupd. reflexivity.
Qed.

Lemma doesRefExist_calls (w : W) :
  clientCalls (snd (doesRefExist artifact refName gitapi w))
  = [CallGetRefs repo].
Proof.
  unfold doesRefExist, bind, call.
  destruct (getRefs gitapi (art_repositoryId artifact) w)
    as [[[refs|]|e] w1]; try reflexivity.
  destruct (List.find _ refs) as [foundRef|]; [| reflexivity].
  destruct (strictEq (Str (ref_objectId foundRef)) (art_commit artifact));
    reflexivity.
Qed.

Lemma clientCalls_permissionEvents status :
  clientCalls (permissionEvents status) = [].
Proof. destruct status; reflexivity. Qed.

(** X11: whatever the client answers, reconciling one artifact makes
    exactly one update call, the create request of the artifact, and
    at most one listing call after it; no call is repeated.  The
    listing is fetched only when the update came back with a first
    result that reports no success. *)
Theorem processArtifact_calls (w : W) :
  let calls :=
    clientCalls (snd (processArtifact refName showStatus artifact gitapi w)) in
  calls = [createCall refName artifact]
  \/ (calls = [createCall refName artifact; CallGetRefs repo]
      /\ exists r rs w1,
           updateRefs gitapi [createRequest refName artifact] repo w
           = (Ok (Some (r :: rs)), w1)
           /\ res_success r = false).
Proof.
  cbv zeta. rewrite processArtifact_run.
  destruct (updateRefs gitapi [createRequest refName artifact] repo w)
    as [[[[|r rs]|]|e] w1]; try (left; reflexivity).
  destruct (res_success r) eqn:Hok; [left; reflexivity |].
  right. split; [| eauto].
  pose proof (doesRefExist_calls w1) as Hcalls.
  destruct (doesRefExist artifact refName gitapi w1) as [[[found|e] w2] t2];
    cbn [snd] in Hcalls |- *; unfold clientCalls in *;
    cbn [List.filter isClientCall processingLine createCall app].
  - rewrite List.filter_app, Hcalls.
    destruct found; [reflexivity |].
    rewrite List.filter_app.
    change (List.filter isClientCall (permissionEvents (res_updateStatus r)))
      with (clientCalls (permissionEvents (res_updateStatus r))).
    rewrite clientCalls_permissionEvents. reflexivity.
  - rewrite Hcalls. reflexivity.
Qed.

Lemma doesRefExist_no_result (w : W) result message :
  ~ In (SetResult result message)
      (snd (doesRefExist artifact refName gitapi w)).
Proof.
  unfold doesRefExist, bind, call.
  destruct (getRefs gitapi (art_repositoryId artifact) w)
    as [[[refs|]|e] w1]; try not_among.
  destruct (List.find _ refs) as [foundRef|]; [| not_among].
  destruct (strictEq (Str (ref_objectId foundRef)) (art_commit artifact));
    not_among.
Qed.

(** X12: reconciling one artifact sets the task result only in one
    situation: the update came back with a first result that reports
    no success and the divergence check answered false.  Then the call
    returns normally, the result is Failed with the message that names
    the ref, the status, the repository and the commit of that update
    result, and the pointer to the permissions was logged. *)
Theorem processArtifact_failure (w : W) result message :
  In (SetResult result message)
    (snd (processArtifact refName showStatus artifact gitapi w)) ->
  fst (fst (processArtifact refName showStatus artifact gitapi w)) = Ok tt
  /\ In (permissionsPointer artifact)
       (snd (processArtifact refName showStatus artifact gitapi w))
  /\ exists r rs w1 w2 t2,
       updateRefs gitapi [createRequest refName artifact] repo w
       = (Ok (Some (r :: rs)), w1)
       /\ res_success r = false
       /\ doesRefExist artifact refName gitapi w1 = (Ok false, w2, t2)
       /\ SetResult result message = unableToCreate refName showStatus r.
Proof.
  rewrite processArtifact_run.
  destruct (updateRefs gitapi [createRequest refName artifact] repo w)
    as [[[[|r rs]|]|e] w1];
    try not_among.
  destruct (res_success r) eqn:Hok; [not_among |].
  pose proof (doesRefExist_no_result w1 result message) as Hnot.
  destruct (doesRefExist artifact refName gitapi w1)
    as [[[found|e] w2] t2] eqn:Hex; cbn [fst snd] in *.
  - intros Hin. cbn [app] in Hin.
    destruct Hin as [Hin | [Hin | Hin]]; try discriminate.
    apply in_app_or in Hin as [Hin | Hin]; [contradiction |].
    destruct found; [destruct Hin |]. cbv beta iota.
    split; [reflexivity |]. split.
    + rewrite !List.in_app_iff. cbn [In]. tauto.
    + exists r, rs, w1, w2, t2.
      split; [reflexivity |]. split; [exact Hok |]. split; [exact Hex |].
      apply in_app_or in Hin as [Hin | Hin].
      * destruct (res_updateStatus r); cbn in Hin;
          repeat (destruct Hin as [Hin | Hin]; [discriminate |]);
          destruct Hin.
      * destruct Hin as [Hin | [Hin | []]]; [discriminate |].
        symmetry. exact Hin.
  - intros Hin. cbn [app] in Hin.
    destruct Hin as [Hin | [Hin | Hin]]; try discriminate. contradiction.
Qed.

End ReconcilerInGeneral.

Lemma processArtifact_failure_witness :
  let run1 :=
    processArtifact Scenario.tag Scenario.showStatus Scenario.artifactA
      (GitServer.api Scenario.denyTags) Scenario.emptyRepos in
  fst (fst run1) = Ok tt
  /\ In (permissionsPointer Scenario.artifactA) (snd run1)
  /\ exists r rs w1 w2 t2,
       updateRefs (GitServer.api Scenario.denyTags)
         [createRequest Scenario.tag Scenario.artifactA] "repoA"
         Scenario.emptyRepos
       = (Ok (Some (r :: rs)), w1)
       /\ res_success r = false
       /\ doesRefExist Scenario.artifactA Scenario.tag
            (GitServer.api Scenario.denyTags) w1
          = (Ok false, w2, t2)
       /\ SetResult TaskFailed
            ("Unable to create ref: refs/tags/v1 UpdateStatus: 9 RepositoryId: repoA Commit: "
             +:+ Scenario.commit1)
          = unableToCreate Scenario.tag Scenario.showStatus r.
Proof.
  apply (processArtifact_failure Scenario.tag Scenario.showStatus
           Scenario.artifactA (GitServer.api Scenario.denyTags)
           Scenario.emptyRepos TaskFailed).
  vm_compute. do 5 right. left. reflexivity.
Defined.

(** X14: when [updateRefs] returns [null] or an empty array for an
    artifact, reconciling it logs the warning and then throws the
    TypeError of reading [success] on [null]; no listing is fetched,
    the task result is not set there, and the loop over the artifacts
    ends: the artifacts after it are not processed. *)
Theorem no_result_ends_loop {W} (refName : string)
  (showStatus : GitRefUpdateStatus -> string) (artifact : IArtifactData)
  (rest : list IArtifactData) (gitapi : IGitApi W) (w w1 : W)
  (res : option (list GitRefUpdateResult)) :
  updateRefs gitapi [createRequest refName artifact]
    (art_repositoryId artifact) w = (Ok res, w1) ->
  res = None \/ res = Some [] ->
  forEach (artifact :: rest)
    (fun a => processArtifact refName showStatus a gitapi) w
  = (Throw (cannotRead "success" Null), w1,
     [processingLine refName artifact;
      CallUpdateRefs [createRequest refName artifact]
        (art_repositoryId artifact);
      LogWarning "No update result returned from updateRefs"]).
Proof.
  intros Hupd Hres.
  exact (no_result_aborts_loop refName showStatus artifact rest gitapi w w1
           res Hupd Hres).
Qed.

Lemma no_result_ends_loop_witness :
  forEach [Scenario.artifactA; Scenario.artifactB]
    (fun a =>
       processArtifact Scenario.tag Scenario.showStatus a
         (Scenario.silentFor "repoA" (GitServer.api GitServer.permitAll)))
    Scenario.emptyRepos
  = (Throw (cannotRead "success" Null), Scenario.emptyRepos,
     [processingLine Scenario.tag Scenario.artifactA;
      CallUpdateRefs [createRequest Scenario.tag Scenario.artifactA] "repoA";
      LogWarning "No update result returned from updateRefs"]).
Proof.
  apply (no_result_ends_loop Scenario.tag Scenario.showStatus
           Scenario.artifactA [Scenario.artifactB]
           (Scenario.silentFor "repoA" (GitServer.api GitServer.permitAll))
           Scenario.emptyRepos Scenario.emptyRepos (Some [])).
  - reflexivity.
  - right. reflexivity.
Defined.

(** ** The run, in general *)

Section RunInGeneral.
Context {W : Type}.
Variable host : Host W.
Variable refName : string.
Variable showStatus : GitRefUpdateStatus -> string.

Let failed (e : Exn) : list Event := [SetResult TaskFailed (exn_message e)].
Let nothingFound (arts : list IArtifactData) : list Event :=
  if Nat.eqb (length arts) 0 then [LogWarning "No TfsGit artifacts found."]
  else [].

(** The run, stage by stage. *)
Lemma run_stages (w : W) :
  run host refName showStatus w
  = match getEndpointUrl host with
    | Str url =>
        match
          WebApi host
            (replaceFirst url ".vsrm.visualstudio.com" ".visualstudio.com")
            (getEndpointAuthorizationParameter host)
        with
        | Throw e => (Ok tt, w, failed e)
        | Ok (gitapi, bldapi) =>
            match getAllGitArtifacts host bldapi w with
            | (Throw e, w1, t1) => (Ok tt, w1, t1 ++ failed e)
            | (Ok arts, w1, t1) =>
                match
                  forEach arts
                    (fun a => processArtifact refName showStatus a gitapi) w1
                with
                | (Ok _, w2, t2) => (Ok tt, w2, t1 ++ nothingFound arts ++ t2)
                | (Throw e, w2, t2) =>
                    (Ok tt, w2, (t1 ++ nothingFound arts ++ t2) ++ failed e)
                end
            end
        end
    | v => (Ok tt, w, failed (cannotRead "replace" v))
    end.
Proof.
  unfold run, tryCatch.
  destruct (getEndpointUrl host) as [| | url]; try reflexivity.
  rewrite run_ret_bind.
  destruct (WebApi host _ _) as [[gitapi bldapi]|e]; [| reflexivity].
  unfold bind at 1.
  destruct (getAllGitArtifacts host bldapi w) as [[[arts|e] w1] t1];
    [| reflexivity].
  unfold bind at 1. subst nothingFound. cbv beta.
  destruct (Nat.eqb (length arts) 0); cbn [emit ret];
    destruct (forEach arts _ w1) as [[[[]|e] w2] t2]; reflexivity.
Qed.

(** X16: when the connection cannot be built, nothing is scanned or
    called: if the connection factory throws at the collection URL and
    the token, the run ends at once, the world is left alone and the
    only event is the task result Failed with the message of the
    exception. *)
Theorem run_without_connection (w : W) url e :
  getEndpointUrl host = Str url ->
  WebApi host (replaceFirst url ".vsrm.visualstudio.com" ".visualstudio.com")
    (getEndpointAuthorizationParameter host) = Throw e ->
  run host refName showStatus w
  = (Ok tt, w, [SetResult TaskFailed (exn_message e)]).
Proof.
  intros Hurl Hweb. rewrite run_stages, Hurl, Hweb. reflexivity.
Qed.

(** X18: an exception during discovery ends the run before any
    artifact is reconciled, also those found before it: the events are
    those of discovery, which holds no call to the version-control
    client, followed by the task result Failed with the exception's
    message. *)
Theorem run_discovery_failure (w w1 : W) url gitapi bldapi e t1 :
  getEndpointUrl host = Str url ->
  WebApi host (replaceFirst url ".vsrm.visualstudio.com" ".visualstudio.com")
    (getEndpointAuthorizationParameter host) = Ok (gitapi, bldapi) ->
  getAllGitArtifacts host bldapi w = (Throw e, w1, t1) ->
  run host refName showStatus w
  = (Ok tt, w1, t1 ++ [SetResult TaskFailed (exn_message e)])
  /\ Forall discoveryEvent t1.
Proof.
  intros Hurl Hweb Hdisc. rewrite run_stages, Hurl, Hweb, Hdisc.
  split; [reflexivity |].
  pose proof (scanVariables_discoveryEvent host bldapi artifactRegExp
                (getVariables host) 0 [] w) as Hev.
  rewrite <- getAllGitArtifacts_scan, Hdisc in Hev. exact Hev.
Qed.

Lemma doesRefExist_answers (gitapi : IGitApi W) artifact w listing w1 :
  getRefs gitapi (art_repositoryId artifact) w = (Ok listing, w1) ->
  exists found t,
    doesRefExist artifact refName gitapi w = (Ok found, w1, t)
    /\ updateCalls t = [].
Proof.
  intros Hrefs. unfold doesRefExist, bind. erewrite run_call by exact Hrefs.
  destruct listing as [refs|]; [| eexists _, _; split; reflexivity].
  destruct (List.find _ refs) as [foundRef|];
    [| eexists _, _; split; reflexivity].
  destruct (strictEq (Str (ref_objectId foundRef)) (art_commit artifact));
    eexists _, _; split; reflexivity.
Qed.

Lemma processArtifact_answers (gitapi : IGitApi W) artifact w :
  answers gitapi ->
  exists w' t,
    processArtifact refName showStatus artifact gitapi w = (Ok tt, w', t)
    /\ updateCalls t = [createCall refName artifact].
Proof.
  intros [Hupd Hrefs]. rewrite processArtifact_run.
  destruct (Hupd (createRequest refName artifact) []
              (art_repositoryId artifact) w) as (r & rs & w1 & ->).
  destruct (res_success r); [eexists _, _; split; reflexivity |].
  destruct (Hrefs (art_repositoryId artifact) w1) as (listing & w2 & Hlist).
  destruct (doesRefExist_answers gitapi artifact w1 listing w2 Hlist)
    as (found & t2 & -> & Hcalls).
  eexists _, _. split; [reflexivity |].
  unfold updateCalls in *. cbn [app List.filter isUpdateCall processingLine createCall].
  rewrite List.filter_app, Hcalls. cbn [app]. f_equal.
  destruct found; [reflexivity |].
  rewrite List.filter_app.
  destruct (res_updateStatus r); reflexivity.
Qed.

Lemma forEach_answers (gitapi : IGitApi W) arts :
  answers gitapi ->
  forall w,
  exists w' t,
    forEach arts (fun a => processArtifact refName showStatus a gitapi) w
    = (Ok tt, w', t)
    /\ updateCalls t = map (createCall refName) arts.
Proof.
  intros Hans. induction arts as [|a arts IH]; intros w; cbn [forEach map].
  - exists w, []. split; reflexivity.
  - destruct (processArtifact_answers gitapi a w Hans) as (w1 & t1 & H1 & C1).
    destruct (IH w1) as (w2 & t2 & H2 & C2).
    exists w2, (t1 ++ t2). unfold bind. rewrite H1, H2.
    split; [reflexivity |].
    unfold updateCalls in *. rewrite List.filter_app, C1, C2. reflexivity.
Qed.

Lemma updateCalls_discovery t :
  Forall discoveryEvent t -> updateCalls t = [].
Proof.
  induction 1 as [|ev t Hev _ IH]; [reflexivity |].
  unfold updateCalls in *. cbn [List.filter].
  destruct ev; cbn in Hev |- *; try contradiction; exact IH.
Qed.

(** X19: with a version-control client that answers every call, a
    refusal does not stop the run: every discovered artifact is
    reconciled, and the update calls of the whole run are the create
    requests of the discovered artifacts, one each, in the order of
    discovery, all for the same ref name. *)
Theorem run_updates_each_artifact_once (w w1 : W) url gitapi bldapi arts t1 :
  getEndpointUrl host = Str url ->
  WebApi host (replaceFirst url ".vsrm.visualstudio.com" ".visualstudio.com")
    (getEndpointAuthorizationParameter host) = Ok (gitapi, bldapi) ->
  answers gitapi ->
  getAllGitArtifacts host bldapi w = (Ok arts, w1, t1) ->
  exists w2 t,
    run host refName showStatus w = (Ok tt, w2, t)
    /\ updateCalls t = map (createCall refName) arts.
Proof.
  intros Hurl Hweb Hans Hdisc. rewrite run_stages, Hurl, Hweb, Hdisc.
  destruct (forEach_answers gitapi arts Hans w1) as (w2 & t2 & -> & Hcalls).
  eexists _, _. split; [reflexivity |].
  pose proof (scanVariables_discoveryEvent host bldapi artifactRegExp
                (getVariables host) 0 [] w) as Hev.
  rewrite <- getAllGitArtifacts_scan, Hdisc in Hev. cbn [snd] in Hev.
  unfold updateCalls in *. rewrite !List.filter_app.
  change (List.filter isUpdateCall t1) with (updateCalls t1).
  rewrite (updateCalls_discovery t1 Hev), Hcalls.
  subst nothingFound. cbv beta.
  destruct (Nat.eqb (length arts) 0); reflexivity.
Qed.

End RunInGeneral.

(** X17: a release in which no scanned variable is a provider key
    with the value "Git" or "TfsGit": the run logs debug lines and
    then the warning that no artifacts were found; it calls no client,
    does not set the task result and leaves the world as it is. *)
Theorem run_without_git_artifacts {W} (host : Host W) (refName : string)
  (showStatus : GitRefUpdateStatus -> string) (w : W) url gitapi bldapi :
  getEndpointUrl host = Str url ->
  WebApi host (replaceFirst url ".vsrm.visualstudio.com" ".visualstudio.com")
    (getEndpointAuthorizationParameter host) = Ok (gitapi, bldapi) ->
  (forall v name, In v (getVariables host) -> ~ providerOf v name) ->
  exists t,
    run host refName showStatus w
    = (Ok tt, w, t ++ [LogWarning "No TfsGit artifacts found."])
    /\ Forall isDebug t.
Proof.
  intros Hurl Hweb Hnone.
  assert (Hno : forall v m li li',
             In v (getVariables host) ->
             JsRegExp.exec artifactRegExp li (vi_name v) = (Some m, li') ->
             gitProvider (vi_value v) = true -> False).
  { intros v m li li' Hin Hexec Hprov.
    apply (Hnone v (JsRegExp.group m 1) Hin).
    split; [exact Hprov |]. exists li, m, li'. auto. }
  destruct (scanVariables_direct host bldapi artifactRegExp
              (getVariables host)) with (lastIndex := 0)
    (found := @nil IArtifactData) (w := w) as (arts & t & Hscan & Hdebug).
  { intros v m li li' Hin Hexec Hprov.
    destruct (Hno v m li li' Hin Hexec Hprov). }
  assert (Harts : Forall (fun _ => False) arts).
  { eapply (scanVariables_sound host bldapi (getVariables host)
              artifactRegExp (getVariables host) 0 [] w arts w t);
      [| constructor | exact Hscan].
    intros v m li li' id Hin Hexec Hprov.
    exact (Hno v m li li' Hin Hexec Hprov). }
  destruct arts as [|a arts]; [| inversion Harts; contradiction].
  exists t. split; [| exact Hdebug].
  rewrite run_stages, Hurl, Hweb, getAllGitArtifacts_scan, Hscan.
  reflexivity.
Qed.

Lemma run_without_git_artifacts_witness :
  exists t,
    run (Scenario.releaseHost Scenario.noGitArtifacts
           (GitServer.api GitServer.permitAll) Scenario.noBuilds)
      Scenario.tag Scenario.showStatus Scenario.emptyRepos
    = (Ok tt, Scenario.emptyRepos,
       t ++ [LogWarning "No TfsGit artifacts found."])
    /\ Forall isDebug t.
Proof.
  apply (run_without_git_artifacts
           (Scenario.releaseHost Scenario.noGitArtifacts
              (GitServer.api GitServer.permitAll) Scenario.noBuilds)
           Scenario.tag Scenario.showStatus Scenario.emptyRepos
           "https://fabrikam.vsrm.visualstudio.com/"
           (GitServer.api GitServer.permitAll) Scenario.noBuilds).
  - reflexivity.
  - reflexivity.
  - intros v name [<- | [<- | [<- | []]]] [Hprov (li & m & li' & Hexec & _)].
    + rewrite exec_needs_room in Hexec; [discriminate | cbn; lia].
    + discriminate.
    + discriminate.
Defined.

Lemma run_without_connection_witness :
  run (Scenario.unreachable "Invalid collection URL"
         (Scenario.releaseHost Scenario.twoArtifacts
            (GitServer.api GitServer.permitAll) Scenario.noBuilds))
    Scenario.tag Scenario.showStatus Scenario.emptyRepos
  = (Ok tt, Scenario.emptyRepos,
     [SetResult TaskFailed "Invalid collection URL"]).
Proof.
  apply (run_without_connection
           (Scenario.unreachable "Invalid collection URL"
              (Scenario.releaseHost Scenario.twoArtifacts
                 (GitServer.api GitServer.permitAll) Scenario.noBuilds))
           Scenario.tag Scenario.showStatus Scenario.emptyRepos
           "https://fabrikam.vsrm.visualstudio.com/"
           (Rejection "Invalid collection URL")).
  - reflexivity.
  - reflexivity.
Defined.

Lemma run_discovery_failure_witness :
  run (Scenario.releaseHost Scenario.unresolvedThenResolved
         (GitServer.api GitServer.permitAll) Scenario.noBuilds)
    Scenario.tag Scenario.showStatus Scenario.emptyRepos
  = (Ok tt, Scenario.emptyRepos,
     [LogDebug "Getting repository id for artifact: A"; CallGetBuild NaN]
       ++ [SetResult TaskFailed "Build not found"])
  /\ Forall discoveryEvent
       [LogDebug "Getting repository id for artifact: A"; CallGetBuild NaN].
Proof.
  apply (run_discovery_failure
           (Scenario.releaseHost Scenario.unresolvedThenResolved
              (GitServer.api GitServer.permitAll) Scenario.noBuilds)
           Scenario.tag Scenario.showStatus Scenario.emptyRepos
           Scenario.emptyRepos "https://fabrikam.vsrm.visualstudio.com/"
           (GitServer.api GitServer.permitAll) Scenario.noBuilds
           (Rejection "Build not found")).
  - reflexivity.
  - reflexivity.
  - vm_compute. reflexivity.
Defined.

Lemma run_updates_each_artifact_once_witness :
  exists w2 t,
    run (Scenario.releaseHost Scenario.twoArtifacts
           (Scenario.refusing CreateTagPermissionRequired) Scenario.noBuilds)
      Scenario.tag Scenario.showStatus Scenario.emptyRepos
    = (Ok tt, w2, t)
    /\ updateCalls t
       = [createCall Scenario.tag Scenario.artifactA;
          createCall Scenario.tag Scenario.artifactB].
Proof.
  apply (run_updates_each_artifact_once
           (Scenario.releaseHost Scenario.twoArtifacts
              (Scenario.refusing CreateTagPermissionRequired)
              Scenario.noBuilds)
           Scenario.tag Scenario.showStatus Scenario.emptyRepos
           Scenario.emptyRepos "https://fabrikam.vsrm.visualstudio.com/"
           (Scenario.refusing CreateTagPermissionRequired) Scenario.noBuilds
           [Scenario.artifactA; Scenario.artifactB]
           [LogDebug "Getting repository id for artifact: A";
            LogDebug "No match for variable: RELEASE.ARTIFACTS.A.REPOSITORY_ID";
            LogDebug "No match for variable: RELEASE.ARTIFACTS.A.SOURCEVERSION";
            LogDebug "Getting repository id for artifact: B";
            LogDebug "No match for variable: RELEASE.ARTIFACTS.B.REPOSITORY_ID";
            LogDebug "No match for variable: RELEASE.ARTIFACTS.B.SOURCEVERSION"]).
  - reflexivity.
  - reflexivity.
  - split.
    + intros u us repositoryId w. eexists _, _, _. reflexivity.
    + intros repositoryId w. eexists _, _. reflexivity.
  - vm_compute. reflexivity.
Defined.

(** ** The collection URL *)

Lemma string_length_append (a b : string) :
  String.length (a +:+ b) = String.length a + String.length b.
Proof.
  induction a as [|c a IH]; [reflexivity |].
  change (String c a +:+ b) with (String c (a +:+ b)). cbn. rewrite IH.
  reflexivity.
Qed.

Lemma substring_prefix (a x : string) :
  substring 0 (String.length a) (a +:+ x) = a.
Proof.
  induction a as [|c a IH]; [destruct x; reflexivity |].
  change (String c a +:+ x) with (String c (a +:+ x)). cbn. rewrite IH.
  reflexivity.
Qed.

Lemma substring_skip (a x : string) (n m : nat) :
  substring (String.length a + n) m (a +:+ x) = substring n m x.
Proof.
  induction a as [|c a IH]; [reflexivity |].
  change (String c a +:+ x) with (String c (a +:+ x)). cbn. exact IH.
Qed.

Lemma substring_whole (b : string) : substring 0 (String.length b) b = b.
Proof. induction b as [|c b IH]; cbn; [| rewrite IH]; reflexivity. Qed.

Lemma substring_middle (a p b : string) :
  substring (String.length a) (String.length p) (a +:+ p +:+ b) = p.
Proof.
  rewrite <- (Nat.add_0_r (String.length a)), substring_skip.
  apply substring_prefix.
Qed.

(** Replacing a pattern text: the first occurrence, and only it. *)
Lemma replaceFirst_first (a b pattern replacement : string) :
  pattern <> "" ->
  (forall p, p < String.length a ->
     substring p (String.length pattern) (a +:+ pattern +:+ b) <> pattern) ->
  replaceFirst (a +:+ pattern +:+ b) pattern replacement
  = a +:+ replacement +:+ b.
Proof.
  intros Hne Hfirst. unfold replaceFirst.
  pose proof (substring_middle a pattern b) as Hmid.
  destruct (index 0 pattern (a +:+ pattern +:+ b)) as [i|] eqn:E.
  - assert (Hi : i = String.length a).
    { destruct (Nat.lt_trichotomy i (String.length a)) as [Hlt | [Heq | Hgt]].
      - apply index_correct1 in E. destruct (Hfirst i Hlt E).
      - exact Heq.
      - destruct (index_correct2 _ _ _ _ E (String.length a)
                    (Nat.le_0_l _) Hgt Hmid). }
    subst i. rewrite substring_prefix.
    rewrite !string_length_append.
    replace (String.length a + (String.length pattern + String.length b)
             - (String.length a + String.length pattern))
      with (String.length b) by lia.
    rewrite substring_skip.
    rewrite <- (Nat.add_0_r (String.length pattern)), substring_skip.
    rewrite substring_whole. reflexivity.
  - destruct (index_correct3 0 (String.length a) _ _ E Hne (Nat.le_0_l _)
                Hmid).
Qed.

Lemma replaceFirst_absent (s pattern replacement : string) :
  (forall m, substring m (String.length pattern) s <> pattern) ->
  replaceFirst s pattern replacement = s.
Proof.
  intros Habsent. unfold replaceFirst.
  destruct (index 0 pattern s) as [i|] eqn:E; [| reflexivity].
  apply index_correct1 in E. destruct (Habsent i E).
Qed.

(** Discovery reads the host through its variables only. *)
Lemma scanVariables_same_variables {W} (h h' : Host W) (bldapi : IBuildApi W)
  (regexp : JsRegExp.RegExp) (variables : list VariableInfo) :
  (forall key, getVariable h key = getVariable h' key) ->
  forall lastIndex found w,
    scanVariables h bldapi regexp variables lastIndex found w
    = scanVariables h' bldapi regexp variables lastIndex found w.
Proof.
  intros Hvar.
  assert (Hid : forall name w,
             getRepositoryId h bldapi name w
             = getRepositoryId h' bldapi name w).
  { intros name w. unfold getRepositoryId, getRepositoryIdFromBuildNumber.
    cbv zeta. rewrite !Hvar. reflexivity. }
  induction variables as [|v rest IH]; intros lastIndex found w;
    cbn [scanVariables]; [reflexivity |].
  destruct (JsRegExp.exec regexp lastIndex (vi_name v)) as [[m|] li].
  - destruct (negb _ && negb _).
    + apply bind_ext. intros; apply IH.
    + apply bind_ext. intros _ w1. unfold bind. rewrite Hid.
      destruct (getRepositoryId h' bldapi (JsRegExp.group m 1) w1)
        as [[[rid|e] w2] t2]; [| reflexivity].
      destruct rid as [| | id]; rewrite ?Hvar, IH; reflexivity.
  - apply bind_ext. intros; apply IH.
Qed.

(** X20: the connection is built from the endpoint URL with its first
    occurrence of ".vsrm.visualstudio.com" replaced by
    ".visualstudio.com", what comes before and after it kept as it is
    (an endpoint URL without that text is used unchanged), and from
    the access token.  The run consults the connection factory there
    and nowhere else: two hosts that differ in the connection factory
    alone, and whose factories answer alike at that URL and token, run
    alike. *)
Theorem collection_url {W} (host host' : Host W) (refName : string)
  (showStatus : GitRefUpdateStatus -> string) (url collectionUrl : string)
  (w : W) :
  sameButWebApi host host' ->
  getEndpointUrl host = Str url ->
  (exists a b,
      url = a +:+ ".vsrm.visualstudio.com" +:+ b
      /\ (forall p, p < String.length a ->
            substring p 22 url <> ".vsrm.visualstudio.com")
      /\ collectionUrl = a +:+ ".visualstudio.com" +:+ b)
  \/ ((forall m, substring m 22 url <> ".vsrm.visualstudio.com")
      /\ collectionUrl = url) ->
  WebApi host collectionUrl (getEndpointAuthorizationParameter host)
  = WebApi host' collectionUrl (getEndpointAuthorizationParameter host) ->
  run host refName showStatus w = run host' refName showStatus w.
Proof.
  intros (Hvars & Hvar & _ & Htoken & Hsame) Hurl Hcollection Hweb.
  assert (Hreplaced :
    replaceFirst url ".vsrm.visualstudio.com" ".visualstudio.com"
    = collectionUrl).
  { destruct Hcollection as [(a & b & -> & Hfirst & ->) | [Habsent ->]].
    - apply replaceFirst_first; [discriminate | exact Hfirst].
    - apply replaceFirst_absent. exact Habsent. }
  rewrite !run_stages. rewrite <- Hsame, Hurl, Hreplaced, <- Htoken, <- Hweb.
  destruct (WebApi host collectionUrl _) as [[gitapi bldapi]|e];
    [| reflexivity].
  rewrite !getAllGitArtifacts_scan, <- Hvars.
  rewrite (scanVariables_same_variables host host' bldapi artifactRegExp
             (getVariables host) Hvar).
  reflexivity.
Qed.

Lemma collection_url_witness :
  let host :=
    Scenario.releaseHost Scenario.twoArtifacts
      (GitServer.api GitServer.permitAll) Scenario.noBuilds in
  run host Scenario.tag Scenario.showStatus Scenario.emptyRepos
  = run (Scenario.servedAt "https://fabrikam.visualstudio.com/" host)
      Scenario.tag Scenario.showStatus Scenario.emptyRepos.
Proof.
  apply (collection_url
           (Scenario.releaseHost Scenario.twoArtifacts
              (GitServer.api GitServer.permitAll) Scenario.noBuilds)
           (Scenario.servedAt "https://fabrikam.visualstudio.com/"
              (Scenario.releaseHost Scenario.twoArtifacts
                 (GitServer.api GitServer.permitAll) Scenario.noBuilds))
           Scenario.tag Scenario.showStatus
           "https://fabrikam.vsrm.visualstudio.com/"
           "https://fabrikam.visualstudio.com/" Scenario.emptyRepos).
  - repeat split.
  - reflexivity.
  - left. exists "https://fabrikam", "/". split; [reflexivity |].
    split; [| reflexivity].
    intros p Hp.
    do 16 (destruct p as [|p]; [discriminate |]).
    cbn in Hp. lia.
  - reflexivity.
Defined.

(** ** The default rule with a replacement of one's own *)

Section WhiteSpaceRuns.
Import JsRegExp.
Variable repl : list ascii.

Let wsItem : Item := mkItem CSpace QPlus false.

Lemma dropWhiteSpace_stable s : dropWhiteSpace (dropWhiteSpace s) = dropWhiteSpace s.
Proof.
  induction s as [|c s IH]; [reflexivity |]. cbn [dropWhiteSpace].
  destruct (isWhiteSpace c) eqn:E; [exact IH |].
  cbn [dropWhiteSpace]. rewrite E. reflexivity.
Qed.

Lemma replaceRuns_after_run rest :
  dropWhiteSpace rest = rest ->
  replaceRuns repl true rest = replaceRuns repl false rest.
Proof.
  destruct rest as [|c rest]; [reflexivity |]. cbn [dropWhiteSpace replaceRuns].
  destruct (isWhiteSpace c); [| reflexivity].
  intros H. pose proof (length_dropWhiteSpace rest) as Hlen.
  rewrite H in Hlen. cbn in Hlen. lia.
Qed.

(** The search finds the first run of white space, all of it. *)
Lemma search_run s :
  forall idx,
    (search false [wsItem] s idx = None
     /\ replaceRuns repl false s = s)
    \/ exists pre c run rest,
         s = pre ++ (c :: run) ++ rest
         /\ replaceRuns repl false s
            = pre ++ repl ++ replaceRuns repl false rest
         /\ search false [wsItem] s idx
            = Some (mkMatch (idx + length pre)
                      (idx + length pre + S (length run)) []).
Proof.
  induction s as [|c s IH]; intros idx.
  - left. split; reflexivity.
  - cbn [search]. rewrite matchItems_whiteSpace.
    destruct (isWhiteSpace c) eqn:Ec.
    + right.
      assert (Hrun : forall t,
                 exists run,
                   t = run ++ dropWhiteSpace t
                   /\ replaceRuns repl true t
                      = replaceRuns repl true (dropWhiteSpace t)).
      { induction t as [|d t [run [Ht Hr]]];
          [exists []; split; reflexivity |].
        cbn [dropWhiteSpace replaceRuns]. destruct (isWhiteSpace d) eqn:Ed.
        - exists (d :: run). split; [cbn [app]; f_equal; exact Ht | exact Hr].
        - exists []. split; [reflexivity |].
          cbn [replaceRuns]. rewrite Ed. reflexivity. }
      destruct (Hrun s) as (run & Hs & Hr).
      exists [], c, run, (dropWhiteSpace s).
      split; [cbn [app]; f_equal; exact Hs |].
      split.
      * cbn [replaceRuns app]. rewrite Ec, Hr.
        rewrite replaceRuns_after_run by apply dropWhiteSpace_stable.
        reflexivity.
      * cbn [dropWhiteSpace]. rewrite Ec.
        pose proof (f_equal (@length ascii) Hs) as Hlen.
        rewrite length_app in Hlen.
        f_equal. f_equal; cbn [length]; lia.
    + destruct (IH (S idx))
        as [[Hnone Hf] | (pre & d & run & rest & Hs & Hr & Hsearch)].
      * left. split; [exact Hnone |].
        cbn [replaceRuns]. rewrite Ec. congruence.
      * right. exists (c :: pre), d, run, rest.
        split; [rewrite Hs; reflexivity |]. split.
        -- cbn [replaceRuns app]. rewrite Ec, Hr. reflexivity.
        -- rewrite Hsearch. cbn [length]. do 2 f_equal; lia.
Qed.

Lemma substitute_runs (str : string) :
  forall fuel done s,
    list_ascii_of_string str = done ++ s ->
    length s < fuel ->
    substitute (list_ascii_of_string str) (length done)
      (matches fuel whiteSpaceRegExp (length done) str) repl
    = replaceRuns repl false s.
Proof.
  induction fuel as [|fuel IH]; intros done s Hstr Hfuel; [lia |].
  cbn [matches]. unfold exec.
  change (global whiteSpaceRegExp) with true.
  change (ignoreCase whiteSpaceRegExp) with false.
  change (items whiteSpaceRegExp) with [wsItem].
  rewrite Hstr, length_app.
  destruct (Nat.ltb_spec (length done + length s) (length done)); [lia |].
  rewrite skipn_app, skipn_all, Nat.sub_diag, drop_0. cbn [app].
  destruct (search_run s (length done))
    as [[Hnone Hf] | (pre & c & run & rest & Hs & Hr & Hsearch)].
  - rewrite Hnone. cbn [substitute].
    rewrite skipn_app, skipn_all, Nat.sub_diag, drop_0. cbn [app].
    congruence.
  - rewrite Hsearch. cbn [endIndex index].
    destruct (Nat.eqb_spec (length done + length pre + S (length run))
                (length done + length pre)) as [Heq | _]; [lia |].
    cbn [substitute index endIndex].
    destruct (Nat.leb_spec (length done) (length done + length pre)); [| lia].
    rewrite skipn_app, skipn_all, Nat.sub_diag, drop_0. cbn [app].
    replace (length done + length pre - length done) with (length pre) by lia.
    rewrite Hs at 1. rewrite firstn_app, firstn_all, Nat.sub_diag.
    cbn [firstn]. rewrite app_nil_r.
    assert (Hstr' : list_ascii_of_string str
                    = (done ++ pre ++ c :: run) ++ rest).
    { rewrite Hstr, Hs, <- !app_assoc. reflexivity. }
    specialize (IH (done ++ pre ++ c :: run) rest Hstr').
    rewrite !length_app, Nat.add_assoc in IH. cbn [length] in IH.
    rewrite <- Hstr, IH.
    + rewrite Hr. reflexivity.
    + rewrite Hs, !length_app in Hfuel. cbn [length] in Hfuel. lia.
Qed.

End WhiteSpaceRuns.

Lemma replace_runs (str replacement : string) :
  existsb (Ascii.eqb "$") (list_ascii_of_string replacement) = false ->
  JsRegExp.replace str whiteSpaceRegExp replacement
  = Some (replaceWhiteSpace replacement str).
Proof.
  intros Hplain. unfold JsRegExp.replace. rewrite Hplain.
  rewrite (substitute_runs (list_ascii_of_string replacement) str _ []
             (list_ascii_of_string str)); [reflexivity | reflexivity | lia].
Qed.

(** X10: with the search pattern and the flags at their defaults and
    a replacement text of one's own that holds no dollar sign, the ref
    name derived from a release name of ASCII text is the prefix
    followed by the release name in which every run of tabs, line
    breaks and spaces (the white space of ASCII), however long, is
    replaced by the replacement text once; the rest of the release
    name and the prefix are kept. *)
Theorem generateRef_replaces_runs {W} (host : Host W)
  (releaseName prefix replacement : string) (w : W) :
  asciiText releaseName = true ->
  getInputOrDefault host "searchRegex" defaultSearchPattern = "\s+" ->
  getInputOrDefault host "regexFlags" defaultRegexFlags = "g" ->
  getInputOrDefault host "replacePattern" defaultReplacePattern
  = replacement ->
  existsb (Ascii.eqb "$") (list_ascii_of_string replacement) = false ->
  generateRef host releaseName prefix w
  = (Ok (prefix +:+ replaceWhiteSpace replacement releaseName), w,
     [LogDebug ("Search Regex: '" +:+ "\s+" +:+ "', Replace Pattern: '"
                +:+ replacement +:+ "', flags: '" +:+ "g" +:+ "'");
      LogDebug ("RefName: '"
                +:+ (prefix +:+ replaceWhiteSpace replacement releaseName)
                +:+ "'")]).
Proof.
  intros _ Hs Hf Hr Hplain. unfold generateRef. rewrite Hs, Hf, Hr. cbv zeta.
  change (JsRegExp.RegExp_new "\s+" "g") with (Some whiteSpaceRegExp).
  rewrite run_emit_bind, (replace_runs _ _ Hplain), run_emit_bind.
  reflexivity.
Qed.

Lemma generateRef_replaces_runs_witness :
  generateRef Scenario.dashHost "My  Release 1" "refs/tags/"
    Scenario.emptyRepos
  = (Ok "refs/tags/My-Release-1", Scenario.emptyRepos,
     [LogDebug "Search Regex: '\s+', Replace Pattern: '-', flags: 'g'";
      LogDebug "RefName: 'refs/tags/My-Release-1'"]).
Proof.
  apply (generateRef_replaces_runs Scenario.dashHost "My  Release 1"
           "refs/tags/" "-" Scenario.emptyRepos);
    reflexivity.
Defined.
